(** * AI code reviewer: review orchestrator and webhook gateway

    A shallow embedding of [src/aiReviewService.ts] (class [AIReviewService])
    and [src/webhookServer.ts] (class [WebhookServer]), with the properties
    of the specification stated over it.

    Conventions.
    - A JavaScript string is a Rocq [string], one character per code unit.
    - A JavaScript value obtained from [JSON.parse] is a [Json] tree;
      [undefined] is [None] in an [option Json].  Numbers are integers;
      their text is the one JavaScript writes for the integers it holds
      exactly, at most 2^53 in absolute value ([JsValue.exact]).
    - [JSON.parse], the clock, the network and HMAC-SHA256 belong to the
      platform: they are section variables or fields of the world, and a
      concrete reader [json_parse] is provided to run examples.
    - Code that throws returns an [Outcome]; code with effects threads the
      [World] it acts on.  The reading of a property and the conversion
      to text return an [option], where [None] is their TypeError. *)

From Stdlib Require Import List String Ascii Bool Arith ZArith Lia.
From Stdlib Require Import Numbers.DecimalString.
From Stdlib Require Numbers.DecimalNat.
Import ListNotations.

Set Implicit Arguments.
Set Warnings "-register-all,-abstract-large-number".

(* ================================================================== *)
(** * JavaScript strings *)
(* ================================================================== *)

Module JsString.
Local Open Scope string_scope.

(** [s.startsWith(p)] *)
Fixpoint startsWith (s p : string) {struct p} : bool :=
  match p, s with
  | EmptyString, _ => true
  | String _ _, EmptyString => false
  | String a p', String b s' => Ascii.eqb a b && startsWith s' p'
  end.

(** [s.includes(p)] *)
Fixpoint includes (s p : string) : bool :=
  startsWith s p ||
  match s with
  | EmptyString => false
  | String _ s' => includes s' p
  end.

(** [s.endsWith(p)] *)
Definition endsWith (s p : string) : bool :=
  Nat.leb (String.length p) (String.length s) &&
  String.eqb (substring (String.length s - String.length p) (String.length p) s) p.

(** [s.substring(0, n)] for [0 <= n]. *)
Definition substring0 (n : nat) (s : string) : string := substring 0 n s.

(** Drop the first [n] characters: [s.substring(n)]. *)
Fixpoint drop (n : nat) (s : string) : string :=
  match n, s with
  | O, _ => s
  | S _, EmptyString => EmptyString
  | S n', String _ s' => drop n' s'
  end.

(** White space and line terminators of ECMAScript among the code units
    below 256: TAB, LF, VT, FF, CR, SP and NBSP. *)
Definition isWhiteSpace (c : ascii) : bool :=
  let n := nat_of_ascii c in
  Nat.eqb n 9 || Nat.eqb n 10 || Nat.eqb n 11 || Nat.eqb n 12
  || Nat.eqb n 13 || Nat.eqb n 32 || Nat.eqb n 160.

Fixpoint trimStart (s : string) : string :=
  match s with
  | EmptyString => EmptyString
  | String c s' => if isWhiteSpace c then trimStart s' else s
  end.

(** [trimEnd] keeps a character when it is not white space or when
    something is left after it. *)
Fixpoint trimEnd (s : string) : string :=
  match s with
  | EmptyString => EmptyString
  | String c s' =>
      match trimEnd s' with
      | EmptyString => if isWhiteSpace c then EmptyString else String c EmptyString
      | r => String c r
      end
  end.

(** [s.trim()] *)
Definition trim (s : string) : string := trimEnd (trimStart s).

(** [s.toLowerCase()] on code units below 256: A-Z and the Latin-1
    capitals 0xC0-0xDE without the multiplication sign 0xD7. *)
Definition lowerChar (c : ascii) : ascii :=
  let n := nat_of_ascii c in
  if (Nat.leb 65 n && Nat.leb n 90)
     || (Nat.leb 192 n && Nat.leb n 222 && negb (Nat.eqb n 215))
  then ascii_of_nat (n + 32) else c.

Fixpoint toLowerCase (s : string) : string :=
  match s with
  | EmptyString => EmptyString
  | String c s' => String (lowerChar c) (toLowerCase s')
  end.

(** [elems.join(sep)] *)
Fixpoint join (sep : string) (l : list string) : string :=
  match l with
  | [] => ""
  | [x] => x
  | x :: rest => x ++ sep ++ join sep rest
  end.

(** Decimal rendering of an integer, as in a template literal. *)
Definition ofNat (n : nat) : string := NilEmpty.string_of_uint (Nat.to_uint n).
Definition ofZ (z : Z) : string := NilEmpty.string_of_int (Z.to_int z).

(** The double quote and the line feed, which string literals of this
    file do not contain. *)
Definition dq : string := String (ascii_of_nat 34) EmptyString.
Definition nl : string := String (ascii_of_nat 10) EmptyString.
Definition quoted (s : string) : string := dq ++ s ++ dq.

(** A string of [n] copies of [c]. *)
Fixpoint replicate (n : nat) (c : ascii) : string :=
  match n with
  | O => EmptyString
  | S n' => String c (replicate n' c)
  end.
End JsString.

(* ================================================================== *)
(** * JavaScript values read from JSON *)
(* ================================================================== *)

Inductive Json : Type :=
| JNull : Json
| JBool : bool -> Json
| JNum : Z -> Json
| JStr : string -> Json
| JArr : list Json -> Json
| JObj : list (string * Json) -> Json.

Module JsValue.
Local Open Scope string_scope.

(** Own property of an object built by [JSON.parse]: the last binding of
    a repeated key wins. *)
Fixpoint lookup (k : string) (fields : list (string * Json)) : option Json :=
  match fields with
  | [] => None
  | (k', v) :: rest =>
      match lookup k rest with
      | Some w => Some w
      | None => if String.eqb k k' then Some v else None
      end
  end.

(** [v.k] for a property name [k] that no prototype defines (the names
    read by this program are [message], [file], [line], [severity],
    [category], [snippet], [suggestion], [error], [choices], [content],
    [action], [number], [pull_request], [title]).  [None] is the
    TypeError of reading a property of [null] or [undefined]; [Some None]
    is the value [undefined]. *)
Definition getField (v : option Json) (k : string) : option (option Json) :=
  match v with
  | None => None
  | Some JNull => None
  | Some (JObj fields) => Some (lookup k fields)
  | Some _ => Some None
  end.

(** [v?.k]: optional chaining never throws. *)
Definition optField (v : option Json) (k : string) : option Json :=
  match getField v k with
  | Some r => r
  | None => None
  end.

(** [v?.[0]] *)
Definition optIndex0 (v : option Json) : option Json :=
  match v with
  | Some (JArr (x :: _)) => Some x
  | Some (JObj fields) => lookup "0" fields
  | Some (JStr (String c _)) => Some (JStr (String c EmptyString))
  | _ => None
  end.

(** ToBoolean *)
Definition truthy (v : option Json) : bool :=
  match v with
  | None => false
  | Some JNull => false
  | Some (JBool b) => b
  | Some (JNum z) => negb (Z.eqb z 0)
  | Some (JStr s) => negb (String.eqb s "")
  | Some (JArr _) => true
  | Some (JObj _) => true
  end.

(** [a || b] *)
Definition orElse (a : option Json) (b : option Json) : option Json :=
  if truthy a then a else b.

(** The texts of a list of conversions, when none of them throws. *)
Fixpoint allTexts (l : list (option string)) : option (list string) :=
  match l with
  | [] => Some []
  | None :: _ => None
  | Some x :: rest =>
      match allTexts rest with
      | Some xs => Some (x :: xs)
      | None => None
      end
  end.

(** ToString, as applied by template literals and string concatenation,
    to a value read by [JSON.parse]; [None] is the TypeError "Cannot
    convert object to primitive value".  An object is converted by its
    [toString] method.  The one it inherits from [Object.prototype] gives
    "[object Object]"; an own property [toString] takes its place, and
    since no value read by [JSON.parse] is a function, the conversion then
    finds no method that returns a primitive ([valueOf] is either an own
    property as well, or the inherited one, which returns the object) and
    throws.  An array is converted by [Array.prototype.join], which
    converts its elements, [null] giving the empty string.  A number is
    written with its decimal digits, as JavaScript writes the integers it
    holds exactly (see [exact]). *)
Fixpoint toStr (v : Json) : option string :=
  match v with
  | JNull => Some "null"
  | JBool true => Some "true"
  | JBool false => Some "false"
  | JNum z => Some (JsString.ofZ z)
  | JStr s => Some s
  | JArr l =>
      match allTexts (List.map (fun x => match x with
                                         | JNull => Some ""
                                         | _ => toStr x
                                         end) l) with
      | Some texts => Some (JsString.join "," texts)
      | None => None
      end
  | JObj fields =>
      match lookup "toString" fields with
      | Some _ => None
      | None => Some "[object Object]"
      end
  end.

Definition toString (v : option Json) : option string :=
  match v with
  | None => Some "undefined"
  | Some j => toStr j
  end.

(** The numbers [toStr] writes are integers a JavaScript number holds
    exactly: at most 2^53 in absolute value.  (Beyond, JavaScript writes
    the digits of the nearest number it holds, or an exponent.) *)
Fixpoint exact (v : Json) : bool :=
  match v with
  | JNum z => Z.leb (Z.abs z) (2 ^ 53)
  | JArr l => List.forallb exact l
  | _ => true
  end.


(** [v === s] for a string [s] *)
Definition strictEqStr (v : option Json) (s : string) : bool :=
  match v with
  | Some (JStr t) => String.eqb t s
  | _ => false
  end.
End JsValue.

(* ================================================================== *)
(** * A reader for JSON texts *)
(* ================================================================== *)

(** [JSON.parse] is a built-in of the platform.  The functions of the
    program take it as a parameter; [json_parse] below is a reader for the
    fragment of JSON with integer numbers and without [\u] escapes, used to
    run the program on concrete texts.  [inr] carries the text of the
    SyntaxError, which depends on the engine. *)
Module JsonReader.
Local Open Scope string_scope.
Local Open Scope char_scope.

Definition isJsonWs (c : ascii) : bool :=
  let n := nat_of_ascii c in
  Nat.eqb n 32 || Nat.eqb n 9 || Nat.eqb n 10 || Nat.eqb n 13.

Fixpoint skipWs (s : string) : string :=
  match s with
  | EmptyString => EmptyString
  | String c s' => if isJsonWs c then skipWs s' else s
  end.

Definition isDigit (c : ascii) : bool :=
  let n := nat_of_ascii c in Nat.leb 48 n && Nat.leb n 57.

Definition unescape (c : ascii) : option ascii :=
  if Ascii.eqb c (ascii_of_nat 34) then Some (ascii_of_nat 34)
  else if Ascii.eqb c "\" then Some "\"
  else if Ascii.eqb c "/" then Some "/"
  else if Ascii.eqb c "b" then Some (ascii_of_nat 8)
  else if Ascii.eqb c "f" then Some (ascii_of_nat 12)
  else if Ascii.eqb c "n" then Some (ascii_of_nat 10)
  else if Ascii.eqb c "r" then Some (ascii_of_nat 13)
  else if Ascii.eqb c "t" then Some (ascii_of_nat 9)
  else None.

Definition consChar (c : ascii) (r : option (string * string)) :=
  match r with
  | Some (str, rest) => Some (String c str, rest)
  | None => None
  end.

(** The characters of a string literal after its opening quote. *)
Fixpoint readString (s : string) : option (string * string) :=
  match s with
  | EmptyString => None
  | String c s' =>
      if Ascii.eqb c (ascii_of_nat 34) then Some (EmptyString, s')
      else if Ascii.eqb c "\" then
        match s' with
        | EmptyString => None
        | String e s'' =>
            match unescape e with
            | Some ch => consChar ch (readString s'')
            | None => None
            end
        end
      else if Nat.ltb (nat_of_ascii c) 32 then None
      else consChar c (readString s')
  end.

Fixpoint readDigits (acc : nat) (s : string) : nat * string :=
  match s with
  | EmptyString => (acc, s)
  | String c s' =>
      if isDigit c then readDigits (10 * acc + (nat_of_ascii c - 48)) s'
      else (acc, s)
  end.

Definition startsFraction (s : string) : bool :=
  match s with
  | String c _ => Ascii.eqb c "." || Ascii.eqb c "e" || Ascii.eqb c "E"
  | EmptyString => false
  end.

(** An integer literal without sign: [0] or a digit string that does not
    start with [0]. *)
Definition readNat (s : string) : option (nat * string) :=
  match s with
  | String c s' =>
      if Ascii.eqb c "0" then
        match s' with
        | String d _ => if isDigit d || startsFraction s' then None else Some (0, s')
        | EmptyString => Some (0, s')
        end
      else if isDigit c then
        let '(n, rest) := readDigits 0 s in
        if startsFraction rest then None else Some (n, rest)
      else None
  | EmptyString => None
  end.

Definition readLiteral (lit : string) (v : Json) (s : string) : option (Json * string) :=
  if JsString.startsWith s lit then Some (v, JsString.drop (String.length lit) s)
  else None.

Fixpoint readValue (fuel : nat) (s : string) : option (Json * string) :=
  match fuel with
  | O => None
  | S fuel' =>
      match skipWs s with
      | EmptyString => None
      | String c rest =>
          if Ascii.eqb c "[" then
            match skipWs rest with
            | String "]" r => Some (JArr [], r)
            | _ =>
                match readItems fuel' rest with
                | Some (vs, r) => Some (JArr vs, r)
                | None => None
                end
            end
          else if Ascii.eqb c "{" then
            match skipWs rest with
            | String "}" r => Some (JObj [], r)
            | _ =>
                match readMembers fuel' rest with
                | Some (ms, r) => Some (JObj ms, r)
                | None => None
                end
            end
          else if Ascii.eqb c (ascii_of_nat 34) then
            match readString rest with
            | Some (str, r) => Some (JStr str, r)
            | None => None
            end
          else if Ascii.eqb c "-" then
            match readNat rest with
            | Some (n, r) => Some (JNum (- Z.of_nat n), r)
            | None => None
            end
          else if isDigit c then
            match readNat (String c rest) with
            | Some (n, r) => Some (JNum (Z.of_nat n), r)
            | None => None
            end
          else if Ascii.eqb c "t" then readLiteral "true" (JBool true) (String c rest)
          else if Ascii.eqb c "f" then readLiteral "false" (JBool false) (String c rest)
          else if Ascii.eqb c "n" then readLiteral "null" JNull (String c rest)
          else None
      end
  end
with readItems (fuel : nat) (s : string) : option (list Json * string) :=
  match fuel with
  | O => None
  | S fuel' =>
      match readValue fuel' s with
      | Some (v, r) =>
          match skipWs r with
          | String "," r' =>
              match readItems fuel' r' with
              | Some (vs, r'') => Some (v :: vs, r'')
              | None => None
              end
          | String "]" r' => Some ([v], r')
          | _ => None
          end
      | None => None
      end
  end
with readMembers (fuel : nat) (s : string) : option (list (string * Json) * string) :=
  match fuel with
  | O => None
  | S fuel' =>
      match skipWs s with
      | String c rest =>
          if Ascii.eqb c (ascii_of_nat 34) then
            match readString rest with
            | Some (key, r) =>
                match skipWs r with
                | String ":" r1 =>
                    match readValue fuel' r1 with
                    | Some (v, r2) =>
                        match skipWs r2 with
                        | String "," r3 =>
                            match readMembers fuel' r3 with
                            | Some (ms, r4) => Some ((key, v) :: ms, r4)
                            | None => None
                            end
                        | String "}" r3 => Some ([(key, v)], r3)
                        | _ => None
                        end
                    | None => None
                    end
                | _ => None
                end
            | None => None
            end
          else None
      | EmptyString => None
      end
  end.

Definition syntaxError : string := "SyntaxError: Unexpected token in JSON"%string.

Definition json_parse (text : string) : Json + string :=
  match readValue (2 * String.length text + 2) text with
  | Some (v, rest) =>
      match skipWs rest with
      | EmptyString => inl v
      | _ => inr syntaxError
      end
  | None => inr syntaxError
  end.
End JsonReader.

Definition json_parse := JsonReader.json_parse.

(* ================================================================== *)
(** * Data model ([src/types.ts]) *)
(* ================================================================== *)

Inductive FileStatus : Type :=
| added | removed | modified | renamed | copied | changed | unchanged.

Definition FileStatus_eqb (a b : FileStatus) : bool :=
  match a, b with
  | added, added | removed, removed | modified, modified | renamed, renamed
  | copied, copied | changed, changed | unchanged, unchanged => true
  | _, _ => false
  end.

Record PRFile : Type := {
  sha : string;
  filename : string;
  status : FileStatus;
  additions : Z;
  deletions : Z;
  changes : Z;
  patch : option string;
  blob_url : string;
  raw_url : string;
  contents_url : string;
  previous_filename : option string
}.

(** The severity of an issue at run time: one of the four names, or one
    of the two values that are no severity but that [normalizeSeverity]
    can return, the properties [constructor] and [__proto__] that its
    table inherits from [Object.prototype]. *)
Module Severity.
Inductive t : Type :=
| error | warning | info | suggestion
| Object_constructor | Object_prototype.

Definition eqb (a b : t) : bool :=
  match a, b with
  | error, error | warning, warning | info, info | suggestion, suggestion => true
  | Object_constructor, Object_constructor => true
  | Object_prototype, Object_prototype => true
  | _, _ => false
  end.
End Severity.

(** The category of an issue at run time: as for the severity, with the
    two values [normalizeCategory] can read from [Object.prototype]. *)
Module ReviewCategory.
Inductive t : Type :=
| large_file | debug_statement | todo_comment | security | complexity
| naming | duplicate_code | merge_conflict | best_practice
| error_handling | performance
| Object_constructor | Object_prototype.
End ReviewCategory.

(** [file], [message], [snippet] and [suggestion] hold whatever value the
    remote service sent, a string when the service keeps to the format;
    [None] is [undefined]. *)
Record ReviewIssue : Type := {
  id : string;
  file : Json;
  line : Z;
  endLine : option Z;
  severity : Severity.t;
  category : ReviewCategory.t;
  message : option Json;
  snippet : option Json;
  suggestion : option Json
}.

Record ReviewSummary : Type := {
  totalFiles : nat;
  totalIssues : nat;
  errors : nat;
  warnings : nat;
  info : nat;
  suggestions : nat
}.

Record FileReviewResult : Type := {
  fr_filename : string;
  fr_status : FileStatus;
  fr_additions : Z;
  fr_deletions : Z;
  fr_issues : list ReviewIssue
}.

Inductive ReviewStatus : Type := pass | warn | fail.

Record ReviewResult : Type := {
  prNumber : Z;
  prTitle : string;
  branchName : string;
  timestamp : string;
  summary : ReviewSummary;
  issues : list ReviewIssue;
  files : list FileReviewResult;
  rr_status : ReviewStatus
}.

(* ================================================================== *)
(** * The world of the review engine *)
(* ================================================================== *)

(** What one [https.request] to the completion service ends in. *)
Inductive HttpOutcome : Type :=
| HttpResponse (statusCode : nat) (data : string)
| HttpError (errMessage : string)
| HttpTimeout.

(** [net n prompt] is the outcome of the request posted after [n] earlier
    ones with the user prompt [prompt]; [requests] lists the prompts posted
    so far and [sleeps] the waits made so far, in milliseconds, both oldest
    first; [clock] is what [new Date().toISOString()] reads. *)
Record World : Type := {
  net : nat -> string -> HttpOutcome;
  requests : list string;
  sleeps : list nat;
  clock : string
}.

(** A call either returns a value or throws an [Error] with a message. *)
Inductive Outcome (A : Type) : Type :=
| Returned (value : A)
| Thrown (errMessage : string).
Arguments Thrown {A} errMessage.

Definition M (A : Type) : Type := World -> Outcome A * World.

Definition ret {A} (a : A) : M A := fun w => (Returned a, w).
Definition throw {A} (msg : string) : M A := fun w => (Thrown msg, w).
Definition bind {A B} (m : M A) (k : A -> M B) : M B :=
  fun w =>
    match m w with
    | (Returned a, w') => k a w'
    | (Thrown msg, w') => (Thrown msg, w')
    end.
Definition tryCatch {A} (m : M A) (handler : string -> M A) : M A :=
  fun w =>
    match m w with
    | (Returned a, w') => (Returned a, w')
    | (Thrown msg, w') => handler msg w'
    end.

Declare Scope js_scope.
Delimit Scope js_scope with js.
Notation "x <- m ;; k" := (bind m (fun x => k))
  (at level 61, m at next level, right associativity) : js_scope.
Notation "m ;;; k" := (bind m (fun _ => k))
  (at level 61, right associativity) : js_scope.

(* ================================================================== *)
(** * [AIReviewService] ([src/aiReviewService.ts]) *)
(* ================================================================== *)

Section AIReviewService.
Local Open Scope string_scope.
Local Open Scope js_scope.
Import JsString JsValue.

(** The platform's [JSON.parse]: a value, or the text of the SyntaxError. *)
Variable JSON_parse : string -> Json + string.

(** ** Prompt builder *)

Definition defaultCategories : string :=
  "security, performance, error-handling, best-practices, code-quality, naming, complexity, debug-statements, todo-comments".

Definition patchText (f : PRFile) : string :=
  match patch f with
  | Some p => p
  | None => "undefined"
  end.

Definition fileDiff (f : PRFile) : string :=
  nl ++ "### File: " ++ filename f ++ nl ++ "```diff" ++ nl ++ patchText f ++ nl ++ "```".

(** [customRules.map((r, i) => `${i + 1}. ${r}`)] *)
Fixpoint numberRules (i : nat) (rules : list string) : list string :=
  match rules with
  | [] => []
  | r :: rest => (ofNat (i + 1) ++ ". " ++ r) :: numberRules (S i) rest
  end.

Definition promptFormat : list string :=
  [ "For EVERY issue found, respond in EXACTLY this JSON format (array of objects):";
    "[";
    "  {";
    "    " ++ quoted "file" ++ ": " ++ quoted "filename.js" ++ ",";
    "    " ++ quoted "line" ++ ": 10,";
    "    " ++ quoted "severity" ++ ": " ++ quoted "error" ++ ",";
    "    " ++ quoted "category" ++ ": " ++ quoted "security" ++ ",";
    "    " ++ quoted "message" ++ ": " ++ quoted "Clear, specific description of the issue" ++ ",";
    "    " ++ quoted "suggestion" ++ ": " ++ quoted "Concrete fix or improvement" ++ ",";
    "    " ++ quoted "snippet" ++ ": " ++ quoted "the problematic code line";
    "  }";
    "]";
    "";
    "SEVERITY DEFINITIONS (be accurate):";
    "- " ++ quoted "error" ++ "      → WILL cause bugs, crashes, security vulnerabilities, data loss, or injection attacks";
    "- " ++ quoted "warning" ++ "    → BAD practice that COULD lead to problems";
    "- " ++ quoted "info" ++ "       → Minor improvement or code smell";
    "- " ++ quoted "suggestion" ++ " → Optional enhancement";
    "";
    "CATEGORY VALUES (use exactly these):";
    join ", " (List.map quoted
      [ "security"; "performance"; "error-handling"; "best-practice";
        "complexity"; "naming"; "debug-statement"; "todo-comment";
        "large-file"; "merge-conflict"; "duplicate-code" ]);
    "";
    "IMPORTANT:";
    "- Focus on ADDED lines (lines starting with + in the diff), not removed lines";
    "- Be specific — include the actual problematic code in " ++ quoted "snippet";
    "- Line numbers should match the diff's @@ hunk headers";
    "- Do NOT flag trivial style issues — only substantial problems";
    "- If you find NOTHING wrong, return an empty array: []";
    "- Respond with ONLY the raw JSON array. No markdown fences, no explanations.";
    "";
    "PR DIFF TO REVIEW:" ].

Definition buildReviewPrompt (files : list PRFile)
    (enabledCategories customRules : list string) : string :=
  let fileDiffs := join nl (List.map fileDiff files) in
  let categories :=
    if Nat.ltb 0 (List.length enabledCategories)
    then join ", " enabledCategories
    else defaultCategories in
  let customSection :=
    if Nat.ltb 0 (List.length customRules)
    then nl ++ nl
         ++ "ADDITIONAL REVIEW RULES (from the developer — treat these as MANDATORY checks):"
         ++ nl ++ join nl (numberRules 0 customRules)
    else "" in
  let opening :=
    [ "You are a world-class senior code reviewer performing an automated pull request review.";
      "Analyze the following PR diff thoroughly and identify ALL issues.";
      "";
      "REVIEW CATEGORIES TO CHECK: " ++ categories;
      customSection;
      "" ] in
  join nl (List.app opening (List.app promptFormat [ fileDiffs ])).

(** ** File batching *)

Record BatchState : Type := {
  batches : list (list PRFile);
  current : list PRFile;
  currentSize : nat
}.

(** [file.patch?.length || 0] *)
Definition patchSize (f : PRFile) : nat :=
  match patch f with
  | Some p => String.length p
  | None => 0
  end.

(** One turn of the loop of [batchFiles]. *)
Definition batchStep (maxChars : nat) (st : BatchState) (f : PRFile) : BatchState :=
  let st1 :=
    if Nat.ltb maxChars (currentSize st + patchSize f)
       && Nat.ltb 0 (List.length (current st))
    then {| batches := (batches st ++ [current st])%list;
            current := [];
            currentSize := 0 |}
    else st in
  {| batches := batches st1;
     current := (current st1 ++ [f])%list;
     currentSize := currentSize st1 + patchSize f |}.

(** [if (current.length > 0) { batches.push(current); }] *)
Definition flush (st : BatchState) : list (list PRFile) :=
  if Nat.ltb 0 (List.length (current st))
  then (batches st ++ [current st])%list
  else batches st.

Definition batchFiles (files : list PRFile) (maxChars : nat) : list (list PRFile) :=
  let st := fold_left (batchStep maxChars) files
              {| batches := []; current := []; currentSize := 0 |} in
  let batches := flush st in
  if Nat.ltb 0 (List.length batches) then batches else [[]].

(** ** Remote call with retry *)

Definition recordRequest (prompt : string) (w : World) : World :=
  {| net := net w; requests := (requests w ++ [prompt])%list;
     sleeps := sleeps w; clock := clock w |}.

(** [sleep(ms)] *)
Definition sleep (ms : nat) : M unit :=
  fun w =>
    (Returned tt,
     {| net := net w; requests := requests w;
        sleeps := (sleeps w ++ [ms])%list; clock := clock w |}).

(** The message of the error [callGroq] rejects with on a status other
    than 200.  The [try] holds both the parsing of the body and the
    conversion of the detail to text: when either throws, the [catch]
    appends the start of the body instead. *)
Definition statusError (statusCode : nat) (data : string) : string :=
  let errMsg := "Groq API " ++ ofNat statusCode in
  match JSON_parse data with
  | inl errJson =>
      match toString (orElse (optField (optField (Some errJson) "error") "message")
                             (Some (JStr (substring0 300 data)))) with
      | Some detail => errMsg ++ ": " ++ detail
      | None => errMsg ++ ": " ++ substring0 300 data
      end
  | inr _ => errMsg ++ ": " ++ substring0 300 data
  end.

(** What [callGroq] settles with once the response has ended. *)
Definition readResponse (statusCode : nat) (data : string) : Outcome Json :=
  if negb (Nat.eqb statusCode 200) then Thrown (statusError statusCode data)
  else
    match JSON_parse data with
    | inl json =>
        let text :=
          orElse (optField (optField (optIndex0 (optField (Some json) "choices"))
                                     "message") "content")
                 (Some (JStr "")) in
        match text with
        | Some t => if negb (truthy text) then Thrown "Empty response from Groq"
                    else Returned t
        | None => Thrown "Empty response from Groq"
        end
    | inr e => Thrown ("Failed to parse Groq response: " ++ e)
    end.

(** [callGroq]: one request. The value it resolves with is the [content]
    of the first choice, a string when the service keeps to its format. *)
Definition callGroq (prompt : string) : M Json :=
  fun w =>
    let w' := recordRequest prompt w in
    match net w (List.length (requests w)) prompt with
    | HttpResponse statusCode data => (readResponse statusCode data, w')
    | HttpError msg => (Thrown msg, w')
    | HttpTimeout => (Thrown "Groq API timeout (90s)", w')
    end.

(** The loop of [callGroqWithRetry] from [attempt] on, with [left] turns
    to go: [left = maxRetries + 1 - attempt]. *)
Fixpoint retryLoop (left attempt maxRetries : nat) (prompt : string) : M Json :=
  match left with
  | O => throw "Groq API: max retries exhausted"
  | S left' =>
      tryCatch (callGroq prompt)
        (fun err =>
           let is429 := includes err "429" in
           if is429 && Nat.ltb attempt maxRetries then
             let waitSec := attempt * 10 in
             sleep (waitSec * 1000) ;;;
             retryLoop left' (attempt + 1) maxRetries prompt
           else throw err)
  end.

Definition callGroqWithRetry (prompt : string) (maxRetries : nat) : M Json :=
  retryLoop maxRetries 1 maxRetries prompt.

(** ** Response parser *)

(** [cleaned.replace(/^```(?:json)?\n?/, '')] *)
Definition stripLeadingFence (s : string) : string :=
  if startsWith s "```" then
    let s1 := drop 3 s in
    let s2 := if startsWith s1 "json" then drop 4 s1 else s1 in
    if startsWith s2 nl then drop 1 s2 else s2
  else s.

(** [cleaned.replace(/\n?```$/, '')]: the pattern ends at the end of the
    text, so the leftmost match takes the line feed when there is one. *)
Definition stripTrailingFence (s : string) : string :=
  if endsWith s (nl ++ "```") then substring0 (String.length s - 4) s
  else if endsWith s "```" then substring0 (String.length s - 3) s
  else s.

(** The longest prefix of [s] that ends in a closing bracket. *)
Fixpoint upToLastClose (s : string) : option string :=
  match s with
  | EmptyString => None
  | String c s' =>
      match upToLastClose s' with
      | Some r => Some (String c r)
      | None => if Ascii.eqb c "]" then Some (String c EmptyString) else None
      end
  end.

(** [cleaned.match(/\[[\s\S]*\]/)]: from the first opening bracket to the
    last closing bracket after it. *)
Fixpoint matchArray (s : string) : option string :=
  match s with
  | EmptyString => None
  | String c s' =>
      if Ascii.eqb c "[" then
        match upToLastClose s' with
        | Some r => Some (String c r)
        | None => None
        end
      else matchArray s'
  end.

(** ** Normalizers *)

Fixpoint assoc {A : Type} (k : string) (table : list (string * A)) : option A :=
  match table with
  | [] => None
  | (k', v) :: rest => if String.eqb k k' then Some v else assoc k rest
  end.

(** [(s || '').toLowerCase()]; a truthy value that is not a string has no
    [toLowerCase]. *)
Definition lowered (s : option Json) : Outcome string :=
  if truthy s then
    match s with
    | Some (JStr t) => Returned (toLowerCase t)
    | _ => Thrown "TypeError: (s || '').toLowerCase is not a function"
    end
  else Returned (toLowerCase "").

(** The tables are object literals; [assoc] reads their own properties.
    [map[key]] also reads the properties every object inherits from
    [Object.prototype].  A key in lower case can name two of them,
    [constructor] and [__proto__] (the other names hold a capital
    letter); their values, a function and an object, are truthy. *)
Definition inherited {A : Type} (Object_constructor Object_prototype : A)
    (key : string) : option A :=
  if String.eqb key "constructor" then Some Object_constructor
  else if String.eqb key "__proto__" then Some Object_prototype
  else None.

Definition severityTable : list (string * Severity.t) :=
  [ ("error", Severity.error); ("critical", Severity.error); ("high", Severity.error);
    ("warning", Severity.warning); ("warn", Severity.warning); ("medium", Severity.warning);
    ("info", Severity.info); ("low", Severity.info); ("information", Severity.info);
    ("suggestion", Severity.suggestion); ("hint", Severity.suggestion);
    ("enhancement", Severity.suggestion) ].

Definition normalizeSeverity (s : option Json) : Outcome Severity.t :=
  match lowered s with
  | Returned key =>
      Returned (match assoc key severityTable with
                | Some v => v
                | None =>
                    match inherited Severity.Object_constructor
                                    Severity.Object_prototype key with
                    | Some v => v
                    | None => Severity.info
                    end
                end)
  | Thrown e => Thrown e
  end.

Definition categoryTable : list (string * ReviewCategory.t) :=
  [ ("security", ReviewCategory.security); ("performance", ReviewCategory.performance);
    ("error-handling", ReviewCategory.error_handling);
    ("error handling", ReviewCategory.error_handling);
    ("best-practice", ReviewCategory.best_practice);
    ("best-practices", ReviewCategory.best_practice);
    ("best practice", ReviewCategory.best_practice);
    ("complexity", ReviewCategory.complexity);
    ("naming", ReviewCategory.naming);
    ("debug-statement", ReviewCategory.debug_statement);
    ("debug", ReviewCategory.debug_statement);
    ("debug-statements", ReviewCategory.debug_statement);
    ("todo-comment", ReviewCategory.todo_comment); ("todo", ReviewCategory.todo_comment);
    ("large-file", ReviewCategory.large_file);
    ("merge-conflict", ReviewCategory.merge_conflict);
    ("duplicate-code", ReviewCategory.duplicate_code);
    ("code-quality", ReviewCategory.best_practice) ].

Definition normalizeCategory (c : option Json) : Outcome ReviewCategory.t :=
  match lowered c with
  | Returned key =>
      Returned (match assoc key categoryTable with
                | Some v => v
                | None =>
                    match inherited ReviewCategory.Object_constructor
                                    ReviewCategory.Object_prototype key with
                    | Some v => v
                    | None => ReviewCategory.best_practice
                    end
                end)
  | Thrown e => Thrown e
  end.

(** [x || undefined] *)
Definition orUndefined (x : option Json) : option Json :=
  if truthy x then x else None.

(** The callback of [map] in [parseAIResponse], on an item that passed
    the filter.  The [id] is built first: the conversion to text of the
    [file] or of the [line] of the item may throw, as the normalizers
    may. *)
Definition issueOfItem (item : Json) (idx : nat) : Outcome ReviewIssue :=
  let get := optField (Some item) in
  let fileValue :=
    match orElse (get "file") (Some (JStr "unknown")) with
    | Some v => v
    | None => JStr "unknown"
    end in
  let lineValue :=
    if truthy (get "line") then toString (get "line") else Some (ofNat idx) in
  match toStr fileValue, lineValue with
  | Some fileText, Some lineText =>
  match normalizeSeverity (get "severity") with
  | Thrown e => Thrown e
  | Returned sev =>
      match normalizeCategory (get "category") with
      | Thrown e => Thrown e
      | Returned cat =>
          Returned
            {| id := "ai-" ++ fileText ++ "-" ++ lineText ++ "-" ++ ofNat idx;
               file := fileValue;
               line := match get "line" with Some (JNum z) => z | _ => 0%Z end;
               endLine := None;
               severity := sev;
               category := cat;
               message := get "message";
               snippet := orUndefined (get "snippet");
               suggestion := orUndefined (get "suggestion") |}
      end
  end
  | _, _ => Thrown "TypeError: Cannot convert object to primitive value"
  end.

Fixpoint mapItems (idx : nat) (items : list Json) : Outcome (list ReviewIssue) :=
  match items with
  | [] => Returned []
  | item :: rest =>
      match issueOfItem item idx with
      | Thrown e => Thrown e
      | Returned i =>
          match mapItems (S idx) rest with
          | Thrown e => Thrown e
          | Returned l => Returned (i :: l)
          end
      end
  end.

(** [item && item.message] *)
Definition hasMessage (item : Json) : bool :=
  truthy (Some item) && truthy (optField (Some item) "message").

(** The text [parseAIResponse] searches: the response trimmed, and
    without its fences when it starts with one. *)
Definition cleanedOf (text : string) : string :=
  let cleaned := trim text in
  if startsWith cleaned "```"
  then stripTrailingFence (stripLeadingFence cleaned)
  else cleaned.

(** The body of the [try] block of [parseAIResponse]. *)
Definition parseBody (response : Json) : Outcome (list ReviewIssue) :=
  match response with
  | JStr text =>
      let cleaned := cleanedOf text in
      match matchArray cleaned with
      | None => Returned []
      | Some jsonMatch =>
          match JSON_parse jsonMatch with
          | inr e => Thrown e
          | inl (JArr parsed) => mapItems 0 (List.filter hasMessage parsed)
          | inl _ => Returned []
          end
      end
  | _ => Thrown "TypeError: response.trim is not a function"
  end.

Definition parseAIResponse (response : Json) : list ReviewIssue :=
  match parseBody response with
  | Returned l => l
  | Thrown _ => []
  end.

(** ** Summary *)

Definition countSeverity (sev : Severity.t) (l : list ReviewIssue) : nat :=
  List.length (List.filter (fun i => Severity.eqb (severity i) sev) l).

Definition buildSummary (l : list ReviewIssue) (nFiles : nat) : ReviewSummary :=
  {| totalFiles := nFiles;
     totalIssues := List.length l;
     errors := countSeverity Severity.error l;
     warnings := countSeverity Severity.warning l;
     info := countSeverity Severity.info l;
     suggestions := countSeverity Severity.suggestion l |}.

(** ** The review of a pull request *)

(** [f.status !== 'removed' && f.patch && f.patch.length > 0] *)
Definition reviewable (f : PRFile) : bool :=
  negb (FileStatus_eqb (status f) removed)
  && match patch f with
     | Some p => Nat.ltb 0 (String.length p)
     | None => false
     end.

Record ReviewLoop : Type := {
  allIssues : list ReviewIssue;
  apiErrorOccurred : bool;
  lastApiError : string
}.

(** One turn of the loop over the batches: the [try] and its [catch]. *)
Definition reviewBatch (enabledCategories customRules : list string)
    (st : ReviewLoop) (batch : list PRFile) (w : World) : ReviewLoop * World :=
  let prompt := buildReviewPrompt batch enabledCategories customRules in
  match callGroqWithRetry prompt 3 w with
  | (Returned response, w') =>
      ({| allIssues := (allIssues st ++ parseAIResponse response)%list;
          apiErrorOccurred := apiErrorOccurred st;
          lastApiError := lastApiError st |}, w')
  | (Thrown err, w') =>
      ({| allIssues := allIssues st;
          apiErrorOccurred := true;
          lastApiError := err |}, w')
  end.

Fixpoint reviewBatches (enabledCategories customRules : list string)
    (st : ReviewLoop) (bs : list (list PRFile)) (w : World) : ReviewLoop * World :=
  match bs with
  | [] => (st, w)
  | batch :: rest =>
      let '(st', w') := reviewBatch enabledCategories customRules st batch w in
      reviewBatches enabledCategories customRules st' rest w'
  end.

(** The issue pushed when the review failed. *)
Definition apiErrorIssue (fileName lastError : string) : ReviewIssue :=
  {| id := "ai-api-error";
     file := JStr fileName;
     line := 0%Z;
     endLine := None;
     severity := Severity.error;
     category := ReviewCategory.best_practice;
     message := Some (JStr ("AI review failed: " ++ lastError
                            ++ ". Check your Groq API key and try again."));
     snippet := None;
     suggestion := Some (JStr "Get a free API key at https://console.groq.com/keys") |}.

Definition fileResult (l : list ReviewIssue) (f : PRFile) : FileReviewResult :=
  {| fr_filename := filename f;
     fr_status := status f;
     fr_additions := additions f;
     fr_deletions := deletions f;
     fr_issues := List.filter (fun i => strictEqStr (Some (file i)) (filename f)) l |}.

Definition statusOf (s : ReviewSummary) : ReviewStatus :=
  if Nat.ltb 0 (errors s) then fail
  else if Nat.ltb 0 (warnings s) then warn
  else pass.

Definition reviewPullRequest (prNumber : Z) (prTitle branchName headSha : string)
    (files : list PRFile) (enabledCategories customRules : list string)
    (w : World) : ReviewResult * World :=
  let reviewableFiles := List.filter reviewable files in
  let batches := batchFiles reviewableFiles 25000 in
  let '(st, w') :=
    reviewBatches enabledCategories customRules
      {| allIssues := []; apiErrorOccurred := false; lastApiError := "" |}
      batches w in
  let allIssues :=
    if apiErrorOccurred st
       && Nat.eqb (List.length (allIssues st)) 0
       && Nat.ltb 0 (List.length reviewableFiles)
    then
      match reviewableFiles with
      | first :: _ =>
          (allIssues st ++ [apiErrorIssue (filename first) (lastApiError st)])%list
      | [] => allIssues st
      end
    else allIssues st in
  let fileResults := List.map (fileResult allIssues) files in
  let summary := buildSummary allIssues (List.length files) in
  ({| prNumber := prNumber;
      prTitle := prTitle;
      branchName := branchName;
      timestamp := clock w';
      summary := summary;
      issues := allIssues;
      files := fileResults;
      rr_status := statusOf summary |}, w').
End AIReviewService.

(* ================================================================== *)
(** * [WebhookServer] ([src/webhookServer.ts]) *)
(* ================================================================== *)

(** The parts of an [http.IncomingMessage] the handler reads; [body] is
    the text collected from the [data] events. *)
Record IncomingMessage : Type := {
  method : string;
  url : string;
  x_hub_signature_256 : option string;
  x_github_event : option string;
  body : string
}.

(** What handling one request did: the response written with [writeHead]
    and [end] (the object given to [JSON.stringify]), the payloads fired
    to the subscribers of [onPullRequestEvent], the notices shown, and the
    error that escaped the handler, if one did. *)
Record Handled : Type := {
  response : option (nat * Json);
  fired : list Json;
  shown : list string;
  uncaught : option string
}.

Section WebhookServer.
Local Open Scope string_scope.
Import JsString JsValue.

Variable JSON_parse : string -> Json + string.

(** [crypto.createHmac('sha256', key).update(payload).digest('hex')] *)
Variable hmac_sha256_hex : string -> string -> string.

(** [this.secret] and the reading of the clock. *)
Variable secret : string.
Variable now : string.

(** [Buffer.from(s)]: the UTF-8 bytes of a string of code units below
    256. *)
Definition utf8 (c : ascii) : list ascii :=
  let n := nat_of_ascii c in
  if Nat.ltb n 128 then [c]
  else [ascii_of_nat (192 + n / 64); ascii_of_nat (128 + n mod 64)].

Fixpoint Buffer_from (s : string) : list ascii :=
  match s with
  | EmptyString => []
  | String c s' => (utf8 c ++ Buffer_from s')%list
  end.

Fixpoint bytes_eqb (a b : list ascii) : bool :=
  match a, b with
  | [], [] => true
  | x :: a', y :: b' => Ascii.eqb x y && bytes_eqb a' b'
  | _, _ => false
  end.

(** [crypto.timingSafeEqual(a, b)] throws when the byte lengths differ. *)
Definition timingSafeEqual (a b : list ascii) : Outcome bool :=
  if negb (Nat.eqb (List.length a) (List.length b))
  then Thrown "RangeError [ERR_CRYPTO_TIMING_SAFE_EQUAL_LENGTH]: Input buffers must have the same byte length"
  else Returned (bytes_eqb a b).

Definition verifySignature (payload : string) (signature : option string)
  : Outcome bool :=
  match signature with
  | None => Returned false
  | Some sig =>
      if String.eqb sig "" then Returned false
      else
        let digest := "sha256=" ++ hmac_sha256_hex secret payload in
        timingSafeEqual (Buffer_from sig) (Buffer_from digest)
  end.

(** An object literal given to [JSON.stringify]: a property whose value
    is [undefined] is left out. *)
Fixpoint objectOf (props : list (string * option Json)) : list (string * Json) :=
  match props with
  | [] => []
  | (k, Some v) :: rest => (k, v) :: objectOf rest
  | (_, None) :: rest => objectOf rest
  end.

Definition respond (statusCode : nat) (props : list (string * option Json)) : Handled :=
  {| response := Some (statusCode, JObj (objectOf props));
     fired := []; shown := []; uncaught := None |}.

Definition relevantActions : list string :=
  [ "opened"; "synchronize"; "reopened"; "ready_for_review" ].

(** [relevantActions.includes(v)] *)
Definition isRelevant (v : option Json) : bool :=
  List.existsb (strictEqStr v) relevantActions.

(** What is left of a request when the [catch] of the handler runs after
    [writeHead] was called in the [try]: its own [writeHead] throws, and
    the error escapes the handler. *)
Definition headersSent (answer : option (nat * Json)) (events : list Json)
  : Handled :=
  {| response := answer; fired := events; shown := [];
     uncaught := Some "Error [ERR_HTTP_HEADERS_SENT]: Cannot write headers after they are sent to the client" |}.

(** The [try] block of the handler once the payload is parsed. [None] of
    [getField] and of [toString] is a TypeError.  Before any [writeHead]
    the [catch] answers it with 400.  For an action that is not relevant
    the head is written before the acknowledgment is built: when the
    conversion of the action throws there, [end] is never called and the
    request is left without response.  For a relevant action the notice
    is built after the response has ended. *)
Definition dispatch (payload : Json) : Handled :=
  match getField (Some payload) "action" with
  | None => respond 400 [("error", Some (JStr "Invalid JSON payload"))]
  | Some action =>
      if negb (isRelevant action) then
        match toString action with
        | Some text =>
            respond 200
              [("message", Some (JStr ("PR action '" ++ text ++ "' ignored")))]
        | None => headersSent None []
        end
      else
        let number := optField (Some payload) "number" in
        let answer :=
          Some (200, JObj (objectOf [("message", Some (JStr "Review triggered"));
                                     ("pr", number);
                                     ("action", action)])) in
        let notice :=
          match toString number with
          | Some numberText =>
              match getField (optField (Some payload) "pull_request") "title" with
              | Some title =>
                  match toString title, toString action with
                  | Some titleText, Some actionText =>
                      Some ("📩 Webhook received: PR #" ++ numberText ++ " "
                            ++ quoted titleText ++ " (" ++ actionText ++ ")")
                  | _, _ => None
                  end
              | None => None
              end
          | None => None
          end in
        match notice with
        | Some text =>
            {| response := answer; fired := [payload]; shown := [text];
               uncaught := None |}
        | None => headersSent answer [payload]
        end
  end.

(** The listener of the [end] event of the request. *)
Definition onEnd (req : IncomingMessage) : Handled :=
  let verified :=
    if negb (String.eqb secret "")
    then verifySignature (body req) (x_hub_signature_256 req)
    else Returned true in
  match verified with
  | Thrown e =>
      {| response := None; fired := []; shown := []; uncaught := Some e |}
  | Returned false => respond 401 [("error", Some (JStr "Invalid signature"))]
  | Returned true =>
      if negb (match x_github_event req with
               | Some e => String.eqb e "pull_request"
               | None => false
               end)
      then
        respond 200
          [("message",
            Some (JStr ("Event '"
                        ++ match x_github_event req with
                           | Some e => e
                           | None => "undefined"
                           end
                        ++ "' ignored")))]
      else
        match JSON_parse (body req) with
        | inr _ => respond 400 [("error", Some (JStr "Invalid JSON payload"))]
        | inl payload => dispatch payload
        end
  end.

Definition handleRequest (req : IncomingMessage) : Handled :=
  if negb (String.eqb (method req) "POST") then
    respond 405 [("error", Some (JStr "Method not allowed"))]
  else if String.eqb (url req) "/health" then
    respond 200 [("status", Some (JStr "ok")); ("timestamp", Some (JStr now))]
  else if negb (String.eqb (url req) "/webhook") && negb (String.eqb (url req) "/") then
    respond 404 [("error", Some (JStr "Not found"))]
  else onEnd req.
End WebhookServer.

(* ================================================================== *)
(** * The descriptions of the specification *)
(* ================================================================== *)

Module Spec.
Local Open Scope string_scope.

(** Batching in the words of the specification: walk the files in input
    order and add each to the current batch, unless doing so would
    exceed the ceiling and the current batch is already non-empty, in
    which case close the current batch and start a new one containing
    just that file. *)
Fixpoint greedy (ceiling : nat) (cur : list PRFile) (size : nat)
    (rest : list PRFile) : list (list PRFile) :=
  match rest with
  | [] => match cur with
          | [] => []
          | _ :: _ => [cur]
          end
  | f :: rest' =>
      if Nat.ltb ceiling (size + patchSize f) && Nat.ltb 0 (List.length cur)
      then cur :: greedy ceiling [f] (patchSize f) rest'
      else greedy ceiling (cur ++ [f])%list (size + patchSize f) rest'
  end.

(** With no file to review, exactly one empty batch. *)
Definition batching (ceiling : nat) (fs : list PRFile) : list (list PRFile) :=
  match fs with
  | [] => [[]]
  | _ :: _ => greedy ceiling [] 0 fs
  end.

(** The non-empty prefixes of a text, shortest first. *)
Fixpoint prefixes (s : string) : list string :=
  match s with
  | EmptyString => []
  | String c s' => String c EmptyString :: List.map (String c) (prefixes s')
  end.

(** The suffixes of a text, longest first. *)
Fixpoint suffixes (s : string) : list string :=
  match s with
  | EmptyString => []
  | String _ s' => s :: suffixes s'
  end.

Definition isJsonArray (parse : string -> Json + string) (s : string) : bool :=
  JsString.startsWith s "["
  && match parse s with
     | inl (JArr _) => true
     | _ => false
     end.

(** The first syntactically complete JSON array substring of a text:
    the leftmost start, and from it the shortest text, that reads as a
    JSON array. *)
Definition firstJsonArray (parse : string -> Json + string) (s : string)
  : option string :=
  List.find (isJsonArray parse) (List.flat_map prefixes (suffixes s)).

(** [c] does not occur in [s]. *)
Fixpoint absent (c : ascii) (s : string) : bool :=
  match s with
  | EmptyString => true
  | String d s' => negb (Ascii.eqb c d) && absent c s'
  end.

(** [m] runs from the first opening bracket of [s] to the last closing
    bracket of [s]. *)
Definition firstToLast (s m : string) : Prop :=
  exists pre mid post,
    s = pre ++ "[" ++ mid ++ "]" ++ post
    /\ absent "[" pre = true
    /\ absent "]" post = true
    /\ m = "[" ++ mid ++ "]".
End Spec.

(* ================================================================== *)
(** * Sample inputs *)
(* ================================================================== *)

Module Sample.
Local Open Scope string_scope.
Import JsString.

Definition mkFile (name : string) (st : FileStatus) (p : option string) : PRFile :=
  {| sha := "0000"; filename := name; status := st;
     additions := 1; deletions := 0; changes := 1; patch := p;
     blob_url := ""; raw_url := ""; contents_url := "";
     previous_filename := None |}.

(** A patch of [n] characters. *)
Definition patchOf (n : nat) : option string := Some (replicate n "+").

(** A network that answers the requests with the listed outcomes, in
    turn, and times out afterwards. *)
Definition scripted (script : list HttpOutcome) : World :=
  {| net := fun n _ => List.nth n script HttpTimeout;
     requests := []; sleeps := [];
     clock := "2024-01-01T00:00:00.000Z" |}.

(** The body of a successful completion whose first choice has the given
    content, written as it stands between the quotes of the JSON text (a
    line feed as backslash and n). *)
Definition completion (content : string) : string :=
  "{" ++ quoted "choices" ++ ":[{" ++ quoted "message" ++ ":{"
  ++ quoted "content" ++ ":" ++ quoted content ++ "}}]}".

(** The body of a pull-request event. *)
Definition prEvent (action : string) : string :=
  "{" ++ quoted "action" ++ ":" ++ quoted action ++ ","
  ++ quoted "number" ++ ":7,"
  ++ quoted "pull_request" ++ ":{" ++ quoted "title" ++ ":" ++ quoted "Fix" ++ "}}".

Definition post (sig : option string) (event body : string) : IncomingMessage :=
  {| method := "POST"; url := "/webhook";
     x_hub_signature_256 := sig; x_github_event := Some event; body := body |}.

(** A stand-in for HMAC-SHA256 where the digest itself does not matter. *)
Definition noHmac (key payload : string) : string := replicate 64 "0".
End Sample.

(* ================================================================== *)
(** * Further code of the repository *)
(* ================================================================== *)

(** ** The names of the enumerations ([src/types.ts]) *)

(** The name of a severity and of a category; for the two values read
    from [Object.prototype], the name of the property. *)
Definition severityName (v : Severity.t) : string :=
  match v with
  | Severity.error => "error"
  | Severity.warning => "warning"
  | Severity.info => "info"
  | Severity.suggestion => "suggestion"
  | Severity.Object_constructor => "constructor"
  | Severity.Object_prototype => "__proto__"
  end.

Definition categoryName (c : ReviewCategory.t) : string :=
  match c with
  | ReviewCategory.large_file => "large-file"
  | ReviewCategory.debug_statement => "debug-statement"
  | ReviewCategory.todo_comment => "todo-comment"
  | ReviewCategory.security => "security"
  | ReviewCategory.complexity => "complexity"
  | ReviewCategory.naming => "naming"
  | ReviewCategory.duplicate_code => "duplicate-code"
  | ReviewCategory.merge_conflict => "merge-conflict"
  | ReviewCategory.best_practice => "best-practice"
  | ReviewCategory.error_handling => "error-handling"
  | ReviewCategory.performance => "performance"
  | ReviewCategory.Object_constructor => "constructor"
  | ReviewCategory.Object_prototype => "__proto__"
  end.

(** ** Measures and predicates used to state properties *)

(** The characters of the diffs of a batch. *)
Definition batchSize (b : list PRFile) : nat :=
  List.fold_right (fun f n => patchSize f + n) 0 b.

(** In a list of batches, each batch but the last could not take the
    first file of the next one: that file would exceed the ceiling. *)
Fixpoint closedWhenFull (ceiling : nat) (bs : list (list PRFile)) : Prop :=
  match bs with
  | [] => True
  | b1 :: rest =>
      match rest with
      | [] => True
      | b2 :: _ =>
          match b2 with
          | [] => False
          | f :: _ => ceiling < batchSize b1 + patchSize f
          end
          /\ closedWhenFull ceiling rest
      end
  end.

(** A value on which [(s || '').toLowerCase()] works: a falsy value or a
    string. *)
Definition stringOrFalsy (v : option Json) : bool :=
  negb (JsValue.truthy v)
  || match v with
     | Some (JStr _) => true
     | _ => false
     end.

(** An item whose [severity] and [category] can be normalized. *)
Definition normalizable (item : Json) : bool :=
  stringOrFalsy (JsValue.optField (Some item) "severity")
  && stringOrFalsy (JsValue.optField (Some item) "category").

(** The body of a pull-request event whose action is an object with an
    own property [toString]. *)
Definition oddActionEvent : string :=
  ("{" ++ JsString.quoted "action" ++ ":{" ++ JsString.quoted "toString" ++ ":1}}")%string.

(** A value that is falsy or that can be converted to text. *)
Definition textOrFalsy (v : option Json) : bool :=
  negb (JsValue.truthy v)
  || match JsValue.toString v with
     | Some _ => true
     | None => false
     end.

(** An item whose [file] and [line] can be written in the id of its
    issue. *)
Definition printable (item : Json) : bool :=
  textOrFalsy (JsValue.optField (Some item) "file")
  && textOrFalsy (JsValue.optField (Some item) "line").

(** An item [parseAIResponse] makes an issue of without an error. *)
Definition convertible (item : Json) : bool :=
  printable item && normalizable item.

(** An outcome of the network that is not a response with status 200. *)
Definition notOk (o : HttpOutcome) : Prop :=
  match o with
  | HttpResponse statusCode _ => statusCode <> 200
  | HttpError _ => True
  | HttpTimeout => True
  end.

(** A text that is empty or starts with a character that is not a
    digit. *)
Definition noDigitAhead (s : string) : Prop :=
  match s with
  | EmptyString => True
  | String c _ => JsonReader.isDigit c = false
  end.

(** A character that starts the number: neither white space, nor [p],
    nor [#]. *)
Definition startsNumber (c : ascii) : Prop :=
  JsString.isWhiteSpace c = false
  /\ Ascii.eqb c "p" = false /\ Ascii.eqb c "P" = false
  /\ Ascii.eqb c "#" = false.

(** A text made of white space only. *)
Fixpoint allWhiteSpace (s : string) : bool :=
  match s with
  | EmptyString => true
  | String c s' => JsString.isWhiteSpace c && allWhiteSpace s'
  end.

(** The digits of a decimal rendering. *)
Fixpoint allDigits (s : string) : bool :=
  match s with
  | EmptyString => true
  | String c s' => JsonReader.isDigit c && allDigits s'
  end.

(** The text read back from its UTF-8 bytes, for the code units that
    [Buffer_from] encodes. *)
Fixpoint utf8_decode (bytes : list ascii) : string :=
  match bytes with
  | [] => EmptyString
  | b :: rest =>
      if Nat.ltb (nat_of_ascii b) 128 then String b (utf8_decode rest)
      else
        match rest with
        | [] => EmptyString
        | b2 :: rest' =>
            String (ascii_of_nat ((nat_of_ascii b - 192) * 64 + (nat_of_ascii b2 - 128)))
                   (utf8_decode rest')
        end
  end.

(** ** [AIReviewService.verifyApiKey] ([src/aiReviewService.ts]) *)

Section VerifyApiKey.
Local Open Scope string_scope.
Import JsString JsValue.

Variable JSON_parse : string -> Json + string.

Definition verifyPrompt : string :=
  "Respond with exactly: {" ++ quoted "status" ++ ":" ++ quoted "ok" ++ "}".

(** [response.includes('ok')]: a string has [String.prototype.includes],
    an array [Array.prototype.includes]; any other value has no such
    method and the call throws. *)
Definition includesOk (response : Json) : Outcome bool :=
  match response with
  | JStr text => Returned (includes text "ok")
  | JArr items => Returned (List.existsb (fun x => strictEqStr (Some x) "ok") items)
  | _ => Thrown "TypeError: response.includes is not a function"
  end.

Definition verifyApiKey (w : World) : bool * World :=
  match callGroq JSON_parse verifyPrompt w with
  | (Returned response, w') =>
      match includesOk response with
      | Returned b => (b, w')
      | Thrown _ => (false, w')
      end
  | (Thrown _, w') => (false, w')
  end.
End VerifyApiKey.

(** ** The life cycle of [WebhookServer] ([src/webhookServer.ts]) *)

(** What [server.listen] ends in: the [listening] callback, or an [error]
    event with its code and message. *)
Inductive ListenOutcome : Type :=
| Listening
| ListenFailed (code errMessage : string).

(** [server] tells whether [this.server] is not [null]; [statusChanges]
    are the values fired on [onStatusChange] and [notices] the messages
    shown, both oldest first. *)
Record Gateway : Type := {
  server : bool;
  port : nat;
  statusChanges : list bool;
  notices : list string
}.

Section WebhookLifeCycle.
Local Open Scope string_scope.
Import JsString.

Definition isRunning (g : Gateway) : bool := server g.

Definition start (listen : ListenOutcome) (g : Gateway) : Outcome unit * Gateway :=
  if server g then (Thrown "Webhook server is already running.", g)
  else
    match listen with
    | Listening =>
        (Returned tt,
         {| server := true; port := port g;
            statusChanges := (statusChanges g ++ [true])%list;
            notices := List.app (notices g)
                         ["🔗 Webhook server started on port " ++ ofNat (port g)] |})
    | ListenFailed code msg =>
        (Thrown msg,
         {| server := true; port := port g;
            statusChanges := statusChanges g;
            notices :=
              if String.eqb code "EADDRINUSE"
              then List.app (notices g)
                     ["Port " ++ ofNat (port g)
                      ++ " is already in use. Change the webhook port in settings."]
              else notices g |})
    end.

Definition stop (g : Gateway) : Gateway :=
  if server g then
    {| server := false; port := port g;
       statusChanges := (statusChanges g ++ [false])%list;
       notices := (notices g ++ ["Webhook server stopped."])%list |}
  else g.

Definition dispose (g : Gateway) : Gateway :=
  {| server := false; port := port g;
     statusChanges := statusChanges g; notices := notices g |}.
End WebhookLifeCycle.

(** ** [GitHubService.getPullRequestFiles] ([src/githubService.ts]) *)

Section GitHubService.

(** [octokit.rest.pulls.listFiles] for a page, with [per_page: 100]: the
    files of the page, or a rejection. *)
Variable listFiles : nat -> Outcome (list PRFile).

(** The loop of [getPullRequestFiles] from [page] on. The result comes
    with the number of the last page requested; [None] when the turns
    allowed are used up before the loop ends. *)
Fixpoint filesLoop (turns page : nat) (files : list PRFile)
  : option (Outcome (list PRFile) * nat) :=
  match turns with
  | O => None
  | S turns' =>
      match listFiles page with
      | Thrown e => Some (Thrown e, page)
      | Returned data =>
          if Nat.eqb (List.length data) 0 then Some (Returned files, page)
          else
            let files' := (files ++ data)%list in
            if Nat.ltb (List.length data) 100 then Some (Returned files', page)
            else filesLoop turns' (page + 1) files'
      end
  end.

Definition getPullRequestFiles (turns : nat)
  : option (Outcome (list PRFile) * nat) :=
  filesLoop turns 1 [].
End GitHubService.

(** A server that holds the files [all] and serves them in pages of 100. *)
Definition pagedServer (all : list PRFile) (page : nat) : Outcome (list PRFile) :=
  Returned (List.firstn 100 (List.skipn (100 * (page - 1)) all)).

(** ** [parsePRNumber] ([src/extension.ts]) *)

Section ParsePRNumber.
Local Open Scope string_scope.
Import JsString.

(** The [replace] of [parsePRNumber]: its pattern takes, at the start of
    the input, white space, then optionally [pr] in either case with the
    white space after it, then optionally [#], then white space.  Every
    part may match the empty text, so the greedy choices are never
    undone. *)
Definition stripPrefix (input : string) : string :=
  let s1 := trimStart input in
  let s2 :=
    match s1 with
    | String p (String r rest) =>
        if (Ascii.eqb p "p" || Ascii.eqb p "P") && (Ascii.eqb r "r" || Ascii.eqb r "R")
        then trimStart rest
        else s1
    | _ => s1
    end in
  let s3 :=
    match s2 with
    | String c rest => if Ascii.eqb c "#" then rest else s2
    | EmptyString => s2
    end in
  trimStart s3.

(** [parseInt(s, 10)]: white space, a sign, then the longest run of
    digits; [None] is [NaN].  The value is the exact integer. *)
Definition parseInt10 (s : string) : option Z :=
  let s := trimStart s in
  let '(negative, digits) :=
    match s with
    | String c rest =>
        if Ascii.eqb c "-" then (true, rest)
        else if Ascii.eqb c "+" then (false, rest)
        else (false, s)
    | EmptyString => (false, s)
    end in
  match digits with
  | String d _ =>
      if JsonReader.isDigit d then
        let n := Z.of_nat (fst (JsonReader.readDigits 0 digits)) in
        Some (if negative then (- n)%Z else n)
      else None
  | EmptyString => None
  end.

Definition parsePRNumber (input : string) : option Z :=
  let cleaned := trim (stripPrefix input) in
  parseInt10 cleaned.
End ParsePRNumber.

(** ** [ReviewPanel.escapeHtml] and [WebhookStatusTreeProvider.addEvent] *)

Section Presenters.
Local Open Scope string_scope.
Import JsString.

(** [text.replace(/c/g, by)] for a single character [c]. *)
Fixpoint replaceAll (c : ascii) (by_ : string) (text : string) : string :=
  match text with
  | EmptyString => EmptyString
  | String d rest =>
      if Ascii.eqb d c then by_ ++ replaceAll c by_ rest
      else String d (replaceAll c by_ rest)
  end.

Definition escapeHtml (text : string) : string :=
  replaceAll "'" "&#039;"
    (replaceAll (ascii_of_nat 34) "&quot;"
       (replaceAll ">" "&gt;"
          (replaceAll "<" "&lt;"
             (replaceAll "&" "&amp;" text)))).

(** What [escapeHtml] writes for one character. *)
Definition escapeChar (c : ascii) : string :=
  if Ascii.eqb c "&" then "&amp;"
  else if Ascii.eqb c "<" then "&lt;"
  else if Ascii.eqb c ">" then "&gt;"
  else if Ascii.eqb c (ascii_of_nat 34) then "&quot;"
  else if Ascii.eqb c "'" then "&#039;"
  else String c EmptyString.

(** The text read back from its escaped form: each of the five entities
    that [escapeHtml] writes stands for its character. *)
Fixpoint unescapeHtml (s : string) : string :=
  match s with
  | EmptyString => EmptyString
  | String c rest =>
      if Ascii.eqb c "&" then
        match rest with
        | String k rest1 =>
            if Ascii.eqb k "a" then
              match rest1 with
              | String _ (String _ (String _ r)) => String "&" (unescapeHtml r)
              | _ => s
              end
            else if Ascii.eqb k "l" then
              match rest1 with
              | String _ (String _ r) => String "<" (unescapeHtml r)
              | _ => s
              end
            else if Ascii.eqb k "g" then
              match rest1 with
              | String _ (String _ r) => String ">" (unescapeHtml r)
              | _ => s
              end
            else if Ascii.eqb k "q" then
              match rest1 with
              | String _ (String _ (String _ (String _ r))) =>
                  String (ascii_of_nat 34) (unescapeHtml r)
              | _ => s
              end
            else
              match rest1 with
              | String _ (String _ (String _ (String _ r))) =>
                  String "'" (unescapeHtml r)
              | _ => s
              end
        | EmptyString => s
        end
      else String c (unescapeHtml rest)
  end.

(** [addEvent]: the entry goes to the front and the log keeps its first
    twenty entries; [time] is what [toLocaleTimeString] gives. *)
Definition logEntry (time event : string) : string :=
  "[" ++ time ++ "] " ++ event.

Definition addEvent (time event : string) (eventLog : list string) : list string :=
  let eventLog := logEntry time event :: eventLog in
  if Nat.ltb 20 (List.length eventLog) then List.firstn 20 eventLog else eventLog.

(** The log after a series of events, each with its time. *)
Definition addEvents (events : list (string * string)) (eventLog : list string)
  : list string :=
  List.fold_left (fun log e => addEvent (fst e) (snd e) log) events eventLog.
End Presenters.

(* ================================================================== *)
(** * Batching *)
(* ================================================================== *)

Section BatchingFacts.
Variable maxChars : nat.

Lemma nonempty_length (A : Type) (l : list A) :
  Nat.ltb 0 (List.length l) = match l with [] => false | _ :: _ => true end.
Proof. destruct l; reflexivity. Qed.

Lemma flush_greedy_nil (st : BatchState) :
  flush st = batches st ++ Spec.greedy maxChars (current st) (currentSize st) [].
Proof.
  unfold flush. rewrite nonempty_length. simpl.
  destruct (current st); [now rewrite app_nil_r | reflexivity].
Qed.

(** The loop of [batchFiles] computes the greedy walk of the
    specification from any state. *)
Lemma loop_greedy (fs : list PRFile) :
  forall st,
    flush (fold_left (batchStep maxChars) fs st)
    = batches st ++ Spec.greedy maxChars (current st) (currentSize st) fs.
Proof.
  induction fs as [| f fs IH]; intro st.
  - apply flush_greedy_nil.
  - cbn [fold_left Spec.greedy]. rewrite IH. unfold batchStep.
    destruct (Nat.ltb maxChars (currentSize st + patchSize f)
              && Nat.ltb 0 (List.length (current st))); cbn.
    + now rewrite <- app_assoc.
    + reflexivity.
Qed.

Lemma greedy_concat (fs : list PRFile) :
  forall cur size, List.concat (Spec.greedy maxChars cur size fs) = cur ++ fs.
Proof.
  induction fs as [| f fs IH]; intros cur size; cbn [Spec.greedy].
  - destruct cur; cbn; now rewrite ?app_nil_r.
  - destruct (_ && _); cbn [List.concat]; rewrite IH.
    + reflexivity.
    + now rewrite <- app_assoc.
Qed.

Lemma greedy_nonempty (fs : list PRFile) :
  forall cur size,
    Forall (fun b => b <> []) (Spec.greedy maxChars cur size fs).
Proof.
  induction fs as [| f fs IH]; intros cur size; cbn [Spec.greedy].
  - destruct cur; constructor; [discriminate | constructor].
  - destruct (Nat.ltb maxChars (size + patchSize f)) eqn:Hsize; cbn [andb].
    + rewrite nonempty_length. destruct cur as [| c cur'].
      * apply IH.
      * constructor; [discriminate | apply IH].
    + apply IH.
Qed.

Lemma greedy_cons_not_nil (f : PRFile) (fs : list PRFile) :
  Spec.greedy maxChars [] 0 (f :: fs) <> [].
Proof.
  intro H. pose proof (greedy_concat (f :: fs) [] 0) as Hc.
  rewrite H in Hc. discriminate Hc.
Qed.

Lemma batchFiles_batching (fs : list PRFile) :
  batchFiles fs maxChars = Spec.batching maxChars fs.
Proof.
  unfold batchFiles. rewrite loop_greedy. cbn [batches current currentSize app].
  destruct fs as [| f fs]; [reflexivity |].
  cbn [Spec.batching]. rewrite nonempty_length.
  pose proof (greedy_cons_not_nil f fs) as Hne.
  destruct (Spec.greedy maxChars [] 0 (f :: fs)); [contradiction | reflexivity].
Qed.

Lemma batchFiles_concat (fs : list PRFile) :
  List.concat (batchFiles fs maxChars) = fs.
Proof.
  rewrite batchFiles_batching. destruct fs as [| f fs]; [reflexivity |].
  cbn [Spec.batching]. now rewrite greedy_concat.
Qed.

Lemma batchFiles_nonempty (f : PRFile) (fs : list PRFile) :
  Forall (fun b => b <> []) (batchFiles (f :: fs) maxChars).
Proof. rewrite batchFiles_batching. apply greedy_nonempty. Qed.
End BatchingFacts.

Lemma reviewable_iff (f : PRFile) :
  reviewable f = true
  <-> status f <> removed /\ exists p, patch f = Some p /\ p <> EmptyString.
Proof.
  unfold reviewable. rewrite andb_true_iff, negb_true_iff. split.
  - intros [Hs Hp]. split.
    + intro E. rewrite E in Hs. discriminate.
    + destruct (patch f) as [p |]; [| discriminate].
      exists p. split; [reflexivity |]. intro E. subst p. discriminate.
  - intros [Hs [p [Hp Hne]]]. split.
    + destruct (status f); try reflexivity. now elim Hs.
    + rewrite Hp. destruct p; [now elim Hne | reflexivity].
Qed.

(** Three files of 10,000 characters each under a ceiling of 25,000: the
    first two share a batch and the third opens a new one. *)
Lemma batchFiles_three (f1 f2 f3 : PRFile) :
  patchSize f1 = 10000 -> patchSize f2 = 10000 -> patchSize f3 = 10000 ->
  batchFiles [f1; f2; f3] 25000 = [[f1; f2]; [f3]].
Proof.
  intros H1 H2 H3. unfold batchFiles. cbn [fold_left]. unfold batchStep.
  cbn [current currentSize batches List.length]. rewrite H1.
  replace (Nat.ltb 25000 (0 + 10000)) with false by (vm_compute; reflexivity).
  cbn [andb app current currentSize batches List.length]. rewrite H2.
  replace (Nat.ltb 25000 (0 + 10000 + 10000)) with false by (vm_compute; reflexivity).
  cbn [andb app current currentSize batches List.length]. rewrite H3.
  replace (Nat.ltb 25000 (0 + 10000 + 10000 + 10000)) with true by (vm_compute; reflexivity).
  reflexivity.
Qed.

(* ================================================================== *)
(** * The shape of a review outcome *)
(* ================================================================== *)

Section OutcomeFacts.
Variable JSON_parse : string -> Json + string.

Lemma statusOf_fail (s : ReviewSummary) : statusOf s = fail <-> 0 < errors s.
Proof.
  unfold statusOf. destruct (Nat.ltb_spec 0 (errors s)) as [H | H].
  - tauto.
  - split; [| lia]. destruct (Nat.ltb 0 (warnings s)); discriminate.
Qed.

Lemma statusOf_warn (s : ReviewSummary) :
  statusOf s = warn <-> errors s = 0 /\ 0 < warnings s.
Proof.
  unfold statusOf. destruct (Nat.ltb_spec 0 (errors s)) as [H | H].
  - split; [discriminate | lia].
  - destruct (Nat.ltb_spec 0 (warnings s)) as [H' | H'].
    + split; [lia | reflexivity].
    + split; [discriminate | lia].
Qed.

Lemma statusOf_pass (s : ReviewSummary) :
  statusOf s = pass <-> errors s = 0 /\ warnings s = 0.
Proof.
  unfold statusOf. destruct (Nat.ltb_spec 0 (errors s)) as [H | H].
  - split; [discriminate | lia].
  - destruct (Nat.ltb_spec 0 (warnings s)) as [H' | H'].
    + split; [discriminate | lia].
    + split; [lia | reflexivity].
Qed.

(** Whatever the batches gave, the outcome is assembled from one list of
    issues: the summary counts it, the status is read off the summary and
    every input file gets its entry. *)
Lemma review_shape (n : Z) (title branch head : string) (fs : list PRFile)
    (cats rules : list string) (w : World) :
  exists l w',
    reviewPullRequest JSON_parse n title branch head fs cats rules w
    = ({| prNumber := n; prTitle := title; branchName := branch;
          timestamp := clock w';
          summary := buildSummary l (List.length fs);
          issues := l;
          files := List.map (fileResult l) fs;
          rr_status := statusOf (buildSummary l (List.length fs)) |}, w').
Proof.
  unfold reviewPullRequest.
  destruct (reviewBatches JSON_parse cats rules _ _ w) as [st w'].
  eexists. exists w'. reflexivity.
Qed.

Lemma filter_split_length (A : Type) (p : A -> bool) (l : list A) :
  List.length l
  = List.length (List.filter p l)
    + List.length (List.filter (fun x => negb (p x)) l).
Proof.
  induction l as [| x l IH]; [reflexivity |].
  cbn [List.filter]. destruct (p x); cbn [negb List.length]; lia.
Qed.

Lemma NoDup_map_injective (A B : Type) (g : A -> B) (l : list A) :
  NoDup (List.map g l) ->
  forall x y, In x l -> In y l -> g x = g y -> x = y.
Proof.
  induction l as [| a l IH]; intros Hnd x y Hx Hy Hg; [contradiction |].
  cbn [List.map] in Hnd. inversion Hnd as [| b bs Hnotin Hnd']; subst.
  destruct Hx as [-> | Hx], Hy as [-> | Hy].
  - reflexivity.
  - elim Hnotin. rewrite Hg. now apply in_map.
  - elim Hnotin. rewrite <- Hg. now apply in_map.
  - now apply IH.
Qed.

(** The four counts of a summary and the number of issues whose severity
    is none of the four names add up to the number of issues. *)
Lemma summary_counts_partition (l : list ReviewIssue) (nFiles : nat) :
  let s := buildSummary l nFiles in
  errors s + warnings s + info s + suggestions s
  + countSeverity Severity.Object_constructor l
  + countSeverity Severity.Object_prototype l
  = totalIssues s.
Proof.
  cbn. unfold countSeverity. induction l as [| i l IH]; [reflexivity |].
  cbn [List.filter List.length]. destruct (severity i); cbn; lia.
Qed.

Lemma strictEqStr_true (v : Json) (s : string) :
  JsValue.strictEqStr (Some v) s = true <-> v = JStr s.
Proof.
  destruct v; cbn; try (split; [discriminate | intro E; discriminate E]).
  rewrite String.eqb_eq. split; [now intros -> | now intros [= ->]].
Qed.
End OutcomeFacts.

(** C1: for every outcome returned by [reviewPullRequest], the status is
    [fail] if and only if the summary counts at least one error; otherwise
    it is [warn] if and only if the summary counts at least one warning;
    otherwise it is [pass].  The two counts are those of the issues of the
    outcome with severity [error] and [warning]. *)
Theorem status_follows_summary (JSON_parse : string -> Json + string)
    (n : Z) (title branch head : string) (fs : list PRFile)
    (cats rules : list string) (w : World) :
  let r := fst (reviewPullRequest JSON_parse n title branch head fs cats rules w) in
  errors (summary r) = countSeverity Severity.error (issues r)
  /\ warnings (summary r) = countSeverity Severity.warning (issues r)
  /\ (rr_status r = fail <-> 0 < errors (summary r))
  /\ (rr_status r = warn <-> errors (summary r) = 0 /\ 0 < warnings (summary r))
  /\ (rr_status r = pass <-> errors (summary r) = 0 /\ warnings (summary r) = 0).
Proof.
  destruct (review_shape JSON_parse n title branch head fs cats rules w)
    as [l [w' E]].
  rewrite E. cbn [fst summary issues rr_status].
  split; [reflexivity |]. split; [reflexivity |].
  split; [apply statusOf_fail |].
  split; [apply statusOf_warn | apply statusOf_pass].
Qed.

(** C10: [summary.totalFiles] is the number of files of the input
    change-set, the removed files and the files without diff text
    included. *)
Theorem totalFiles_counts_input (JSON_parse : string -> Json + string)
    (n : Z) (title branch head : string) (fs : list PRFile)
    (cats rules : list string) (w : World) :
  let r := fst (reviewPullRequest JSON_parse n title branch head fs cats rules w) in
  totalFiles (summary r) = List.length fs
  /\ totalFiles (summary r)
     = List.length (List.filter reviewable fs)
       + List.length (List.filter (fun f => negb (reviewable f)) fs).
Proof.
  destruct (review_shape JSON_parse n title branch head fs cats rules w)
    as [l [w' E]].
  rewrite E. cbn [fst summary totalFiles buildSummary].
  split; [reflexivity | apply filter_split_length].
Qed.

(** C2, as stated, fails: a change-set whose only file was removed still
    has its entry in the per-file list of the outcome. *)
Lemma removed_file_has_entry :
  let gone := Sample.mkFile "gone.ts" removed None in
  let r := fst (reviewPullRequest json_parse 1 "title" "branch" "head"
                  [gone] [] [] (Sample.scripted [])) in
  status gone = removed
  /\ List.map fr_filename (files r) = ["gone.ts"%string]
  /\ List.map fr_status (files r) = [removed].
Proof. vm_compute. repeat split. Qed.

(** C2, amended: the per-file list of the outcome has one entry for every
    input file, in input order and whatever the status of the file
    ([removed] included); the issues of an entry are exactly the issues of
    the outcome whose [file] is the name of that file, in the order of the
    outcome (none when there is no such issue).  An issue whose [file] is
    the name of no input file is in no entry, and when the names of the
    input files are distinct no issue is in two entries. *)
Theorem per_file_entries (JSON_parse : string -> Json + string)
    (n : Z) (title branch head : string) (fs : list PRFile)
    (cats rules : list string) (w : World) :
  let r := fst (reviewPullRequest JSON_parse n title branch head fs cats rules w) in
  List.map fr_filename (files r) = List.map filename fs
  /\ List.map fr_status (files r) = List.map status fs
  /\ Forall (fun e =>
               fr_issues e
               = List.filter
                   (fun i => JsValue.strictEqStr (Some (file i)) (fr_filename e))
                   (issues r))
            (files r)
  /\ (forall e i,
        In e (files r) ->
        (In i (fr_issues e) <-> In i (issues r) /\ file i = JStr (fr_filename e)))
  /\ (forall i,
        (forall f, In f fs -> file i <> JStr (filename f)) ->
        forall e, In e (files r) -> ~ In i (fr_issues e))
  /\ (NoDup (List.map filename fs) ->
      forall e1 e2 i,
        In e1 (files r) -> In e2 (files r) ->
        In i (fr_issues e1) -> In i (fr_issues e2) -> e1 = e2).
Proof.
  destruct (review_shape JSON_parse n title branch head fs cats rules w)
    as [l [w' E]].
  rewrite E. cbn [fst files issues].
  assert (Hin : forall e i,
             In e (List.map (fileResult l) fs) ->
             (In i (fr_issues e) <-> In i l /\ file i = JStr (fr_filename e))).
  { intros e i He. apply in_map_iff in He. destruct He as [f [<- _]].
    cbn [fileResult fr_issues fr_filename].
    rewrite filter_In, strictEqStr_true. reflexivity. }
  split; [now rewrite map_map |].
  split; [now rewrite map_map |].
  split; [| split; [| split]].
  - apply Forall_forall. intros e He.
    apply in_map_iff in He. destruct He as [f [<- _]]. reflexivity.
  - exact Hin.
  - intros i Hno e He Hi.
    apply (Hin e i He) in Hi. destruct Hi as [_ Hfile].
    apply in_map_iff in He. destruct He as [f [<- Hf]].
    exact (Hno f Hf Hfile).
  - intros Hnd e1 e2 i He1 He2 Hi1 Hi2.
    apply (Hin e1 i He1) in Hi1. apply (Hin e2 i He2) in Hi2.
    destruct Hi1 as [_ Hf1], Hi2 as [_ Hf2].
    apply in_map_iff in He1. destruct He1 as [f1 [<- Hin1]].
    apply in_map_iff in He2. destruct He2 as [f2 [<- Hin2]].
    cbn [fileResult fr_filename] in Hf1, Hf2.
    assert (Hname : filename f1 = filename f2) by congruence.
    now rewrite (NoDup_map_injective filename fs Hnd f1 f2 Hin1 Hin2 Hname).
Qed.

Lemma per_file_entries_witness :
  let a := Sample.mkFile "a.ts" modified (Sample.patchOf 10) in
  let r := fst (reviewPullRequest json_parse 1 "title" "branch" "head"
                  [a] [] [] (Sample.scripted [])) in
  let i := apiErrorIssue "a.ts" "Groq API timeout (90s)" in
  let e := fileResult [i] a in
  In e (files r) /\ In i (issues r) /\ In i (fr_issues e).
Proof.
  cbv zeta.
  assert (He : In (fileResult [apiErrorIssue "a.ts" "Groq API timeout (90s)"]
                     (Sample.mkFile "a.ts" modified (Sample.patchOf 10)))
                  (files (fst (reviewPullRequest json_parse 1 "title" "branch" "head"
                                 [Sample.mkFile "a.ts" modified (Sample.patchOf 10)]
                                 [] [] (Sample.scripted []))))).
  { vm_compute. left. reflexivity. }
  assert (Hi : In (apiErrorIssue "a.ts" "Groq API timeout (90s)")
                  (issues (fst (reviewPullRequest json_parse 1 "title" "branch" "head"
                                  [Sample.mkFile "a.ts" modified (Sample.patchOf 10)]
                                  [] [] (Sample.scripted []))))).
  { vm_compute. left. reflexivity. }
  split; [exact He |]. split; [exact Hi |].
  apply (proj1 (proj2 (proj2 (proj2
           (per_file_entries json_parse 1 "title" "branch" "head"
              [Sample.mkFile "a.ts" modified (Sample.patchOf 10)]
              [] [] (Sample.scripted []))))) _ _ He).
  split; [exact Hi | reflexivity].
Defined.

(** C3, as stated, fails on its last consequence: with no file to review
    the single batch is empty. *)
Lemma batch_may_be_empty :
  batchFiles (List.filter reviewable []) 25000 = [[]]
  /\ ~ Forall (fun b : list PRFile => b <> [])
         (batchFiles (List.filter reviewable []) 25000).
Proof.
  split; [reflexivity |].
  intro H. inversion H as [| b bs Hb Hbs]. now apply Hb.
Qed.

(** C3, amended: batching keeps the files whose status is not [removed]
    and whose diff text is not empty, and walks them in input order as the
    specification says (each file joins the current batch unless that
    would exceed the ceiling while the batch is not empty, in which case
    the batch is closed and the file opens a new one); so the batches
    concatenated are the reviewable files in input order, each once; every
    batch is non-empty when there is a reviewable file, and with none the
    result is the single empty batch; three files of 10,000 characters
    each under the ceiling of 25,000 give [[f1; f2]; [f3]]. *)
Theorem batching_partitions_reviewable (fs : list PRFile) (maxChars : nat) :
  let reviewableFiles := List.filter reviewable fs in
  (forall f, In f reviewableFiles
             <-> In f fs /\ status f <> removed
                 /\ exists p, patch f = Some p /\ p <> EmptyString)
  /\ batchFiles reviewableFiles maxChars = Spec.batching maxChars reviewableFiles
  /\ List.concat (batchFiles reviewableFiles maxChars) = reviewableFiles
  /\ match reviewableFiles with
     | [] => batchFiles reviewableFiles maxChars = [[]]
     | _ :: _ => Forall (fun b => b <> []) (batchFiles reviewableFiles maxChars)
     end
  /\ (forall f1 f2 f3,
        patchSize f1 = 10000 -> patchSize f2 = 10000 -> patchSize f3 = 10000 ->
        batchFiles [f1; f2; f3] 25000 = [[f1; f2]; [f3]]).
Proof.
  cbv zeta. split; [| split; [| split; [| split]]].
  - intro f. rewrite filter_In, reviewable_iff. reflexivity.
  - apply batchFiles_batching.
  - apply batchFiles_concat.
  - destruct (List.filter reviewable fs) as [| f rest].
    + reflexivity.
    + apply batchFiles_nonempty.
  - exact batchFiles_three.
Qed.

(** The three files of the example, through the filter and the batching
    of [reviewPullRequest]. *)
Lemma batching_partitions_reviewable_witness :
  let f1 := Sample.mkFile "f1" modified (Sample.patchOf 10000) in
  let f2 := Sample.mkFile "f2" added (Sample.patchOf 10000) in
  let f3 := Sample.mkFile "f3" renamed (Sample.patchOf 10000) in
  let gone := Sample.mkFile "gone" removed (Sample.patchOf 10) in
  List.filter reviewable [f1; gone; f2; f3] = [f1; f2; f3]
  /\ batchFiles (List.filter reviewable [f1; gone; f2; f3]) 25000 = [[f1; f2]; [f3]].
Proof.
  cbv zeta. split; [reflexivity |].
  cbn [List.filter reviewable status patch Sample.mkFile FileStatus_eqb negb andb].
  replace (Nat.ltb 0 (String.length (JsString.replicate 10000 "+"))) with true
    by (vm_compute; reflexivity).
  cbn iota.
  apply (proj2 (proj2 (proj2 (proj2 (batching_partitions_reviewable [] 0)))));
    vm_compute; reflexivity.
Defined.

(* ================================================================== *)
(** * The remote call and its retries *)
(* ================================================================== *)

Section RetryFacts.
Variable JSON_parse : string -> Json + string.

Local Open Scope string_scope.

Lemma startsWith_app (p s t : string) :
  JsString.startsWith s p = true -> JsString.startsWith (s ++ t) p = true.
Proof.
  revert s. induction p as [| a p IH]; intros s H; [reflexivity |].
  destruct s as [| b s]; [discriminate |].
  cbn in H |- *. apply andb_true_iff in H. destruct H as [Hab Hrest].
  rewrite Hab. cbn. now apply IH.
Qed.

Lemma includes_app (p s t : string) :
  JsString.includes s p = true -> JsString.includes (s ++ t) p = true.
Proof.
  induction s as [| c s IH]; intro H.
  - cbn in H. rewrite orb_false_r in H.
    destruct p; [| discriminate]. destruct t; reflexivity.
  - cbn [JsString.includes] in H. apply orb_true_iff in H.
    change (String c s ++ t) with (String c (s ++ t)).
    cbn [JsString.includes]. apply orb_true_iff. destruct H as [H | H].
    + left. now apply (startsWith_app p (String c s) t).
    + right. now apply IH.
Qed.

(** The error of a status other than 200 carries the status code, then
    the message of the body or the start of the body. *)
Lemma statusError_carries_code (code : nat) (data : string) :
  exists detail,
    statusError JSON_parse code data
    = "Groq API " ++ JsString.ofNat code ++ ": " ++ detail.
Proof.
  unfold statusError. destruct (JSON_parse data) as [errJson | e];
    [destruct (JsValue.toString _) |];
    eexists; rewrite <- ?append_assoc; reflexivity.
Qed.

Lemma statusError_429 (data : string) :
  JsString.includes (statusError JSON_parse 429 data) "429" = true.
Proof.
  destruct (statusError_carries_code 429 data) as [detail ->].
  change ("Groq API " ++ JsString.ofNat 429 ++ ": " ++ detail)
    with ("Groq API 429" ++ (": " ++ detail)).
  apply includes_app. reflexivity.
Qed.

Lemma readResponse_not_200 (code : nat) (data : string) :
  code <> 200 ->
  readResponse JSON_parse code data = Thrown (statusError JSON_parse code data).
Proof.
  intro H. unfold readResponse.
  destruct (Nat.eqb_spec code 200); [contradiction | reflexivity].
Qed.

Lemma callGroq_world (prompt : string) (w : World) :
  snd (callGroq JSON_parse prompt w) = recordRequest prompt w.
Proof.
  unfold callGroq. destruct (net w _ prompt); reflexivity.
Qed.

(** What a run of the retry loop leaves in the world: [k] requests with
    the same prompt, at least one and at most the turns that were left,
    and a wait of [attempt * 10] seconds before each request but the
    first. *)
Lemma retryLoop_trace (prompt : string) (maxRetries : nat) :
  forall left attempt w o w',
    left + attempt = maxRetries + 1 ->
    0 < left ->
    retryLoop JSON_parse left attempt maxRetries prompt w = (o, w') ->
    exists k,
      1 <= k <= left
      /\ requests w' = (requests w ++ List.repeat prompt k)%list
      /\ sleeps w'
         = (sleeps w ++ List.map (fun a => a * 10 * 1000) (List.seq attempt (k - 1)))%list
      /\ net w' = net w
      /\ clock w' = clock w.
Proof.
  induction left as [| left IH]; intros attempt w o w' Hinv Hpos Hrun; [lia |].
  cbn [retryLoop] in Hrun. unfold tryCatch in Hrun.
  pose proof (callGroq_world prompt w) as Hw.
  destruct (callGroq JSON_parse prompt w) as [[resp | err] w1]; cbn [snd] in Hw; subst w1.
  - injection Hrun as <- <-. exists 1. cbn. rewrite app_nil_r. repeat split; lia.
  - destruct (JsString.includes err "429" && Nat.ltb attempt maxRetries) eqn:Hretry.
    + apply andb_true_iff in Hretry. destruct Hretry as [_ Hlt].
      apply Nat.ltb_lt in Hlt.
      unfold bind, sleep in Hrun.
      apply IH in Hrun; [| lia | lia].
      destruct Hrun as [k [Hk [Hreq [Hsl [Hnet Hclock]]]]].
      cbn [requests sleeps net clock recordRequest] in Hreq, Hsl, Hnet, Hclock.
      exists (S k). repeat split; try lia; try assumption.
      * rewrite Hreq, <- app_assoc. reflexivity.
      * rewrite Hsl, <- app_assoc. cbn [app]. f_equal.
        replace (S k - 1) with (S (k - 1)) by lia.
        cbn [List.seq List.map]. now rewrite Nat.add_1_r.
    + unfold throw in Hrun. injection Hrun as <- <-.
      exists 1. cbn. rewrite app_nil_r. repeat split; lia.
Qed.

Lemma callGroqWithRetry_trace (prompt : string) (w : World) :
  exists k,
    1 <= k <= 3
    /\ requests (snd (callGroqWithRetry JSON_parse prompt 3 w))
       = (requests w ++ List.repeat prompt k)%list
    /\ sleeps (snd (callGroqWithRetry JSON_parse prompt 3 w))
       = (sleeps w ++ List.map (fun a => a * 10 * 1000) (List.seq 1 (k - 1)))%list.
Proof.
  destruct (callGroqWithRetry JSON_parse prompt 3 w) as [o w'] eqn:Hrun.
  unfold callGroqWithRetry in Hrun.
  apply retryLoop_trace in Hrun; [| lia | lia].
  destruct Hrun as [k [Hk [Hreq [Hsl _]]]]. exists k. cbn [snd]. auto.
Qed.

(** A failure whose message does not contain the text 429 is thrown at
    once: one request, no wait. *)
Lemma no_retry_without_429 (prompt : string) (w : World) (err : string)
    (w1 : World) :
  callGroq JSON_parse prompt w = (Thrown err, w1) ->
  JsString.includes err "429" = false ->
  callGroqWithRetry JSON_parse prompt 3 w = (Thrown err, recordRequest prompt w).
Proof.
  intros Hcall Hno. pose proof (callGroq_world prompt w) as Hw.
  rewrite Hcall in Hw. cbn [snd] in Hw. subst w1.
  unfold callGroqWithRetry. cbn [retryLoop]. unfold tryCatch.
  rewrite Hcall, Hno. reflexivity.
Qed.

(** Status 429 three times: three requests, waits of 10 s and 20 s (in
    milliseconds), and the error of the third response is thrown. *)
Lemma rate_limited_thrice (prompt : string) (w : World) (d1 d2 d3 : string) :
  let n := List.length (requests w) in
  net w n prompt = HttpResponse 429 d1 ->
  net w (S n) prompt = HttpResponse 429 d2 ->
  net w (S (S n)) prompt = HttpResponse 429 d3 ->
  callGroqWithRetry JSON_parse prompt 3 w
  = (Thrown (statusError JSON_parse 429 d3),
     {| net := net w;
        requests := (requests w ++ [prompt; prompt; prompt])%list;
        sleeps := (sleeps w ++ [1 * 10 * 1000; 2 * 10 * 1000])%list;
        clock := clock w |}).
Proof.
  intros n H1 H2 H3. subst n.
  assert (H429 : 429 <> 200) by (intro E; vm_compute in E; discriminate E).
  unfold callGroqWithRetry. cbn [retryLoop]. unfold tryCatch, bind, sleep, throw.
  unfold callGroq at 1. rewrite H1, (readResponse_not_200 d1 H429), statusError_429.
  cbn [andb Nat.ltb Nat.leb].
  unfold callGroq at 1. cbn [requests net recordRequest].
  rewrite length_app. cbn [List.length]. rewrite Nat.add_1_r, H2.
  rewrite (readResponse_not_200 d2 H429), statusError_429.
  cbn [andb Nat.ltb Nat.leb Nat.add].
  unfold callGroq at 1. cbn [requests net recordRequest].
  rewrite !length_app. cbn [List.length]. rewrite !Nat.add_1_r, H3.
  rewrite (readResponse_not_200 d3 H429), statusError_429.
  cbn [andb Nat.ltb Nat.leb Nat.add requests sleeps net clock recordRequest].
  unfold recordRequest. cbn [requests sleeps net clock].
  rewrite <- !app_assoc. reflexivity.
Qed.
End RetryFacts.

(** C4, as stated, fails: with no reviewable file the single empty batch
    is posted to the remote service like any other batch. *)
Lemma empty_batch_is_posted :
  let gone := Sample.mkFile "gone.ts" removed (Sample.patchOf 10) in
  let blank := Sample.mkFile "blank.ts" modified None in
  let w := Sample.scripted [HttpResponse 200 (Sample.completion "[]")] in
  let w' := snd (reviewPullRequest json_parse 1 "title" "branch" "head"
                   [gone; blank] [] [] w) in
  List.filter reviewable [gone; blank] = []
  /\ batchFiles (List.filter reviewable [gone; blank]) 25000 = [[]]
  /\ requests w = []
  /\ requests w' = [buildReviewPrompt [] [] []].
Proof. vm_compute. repeat split. Qed.

(** C4, amended: when the change-set has no reviewable file, batching
    gives exactly one empty batch, and the review posts the prompt of that
    batch (a prompt without diffs) as for any batch: the invocation makes
    between one and three remote calls, all with that prompt, and its
    issues are those read from the response, or none when the call
    failed (no issue is made up for the failure). *)
Theorem empty_batch_is_requested (JSON_parse : string -> Json + string)
    (n : Z) (title branch head : string) (fs : list PRFile)
    (cats rules : list string) (w : World) :
  List.filter reviewable fs = [] ->
  let prompt := buildReviewPrompt [] cats rules in
  let run := reviewPullRequest JSON_parse n title branch head fs cats rules w in
  batchFiles (List.filter reviewable fs) 25000 = [[]]
  /\ snd run = snd (callGroqWithRetry JSON_parse prompt 3 w)
  /\ (exists k, 1 <= k <= 3
                /\ requests (snd run) = requests w ++ List.repeat prompt k)
  /\ issues (fst run)
     = match fst (callGroqWithRetry JSON_parse prompt 3 w) with
       | Returned response => parseAIResponse JSON_parse response
       | Thrown _ => []
       end.
Proof.
  intros Hnone prompt run.
  assert (Hrun : snd run = snd (callGroqWithRetry JSON_parse prompt 3 w)
                 /\ issues (fst run)
                    = match fst (callGroqWithRetry JSON_parse prompt 3 w) with
                      | Returned response => parseAIResponse JSON_parse response
                      | Thrown _ => []
                      end).
  { subst run. unfold reviewPullRequest. rewrite Hnone.
    change (batchFiles [] 25000) with [@nil PRFile].
    cbn [reviewBatches]. unfold reviewBatch. fold prompt.
    destruct (callGroqWithRetry JSON_parse prompt 3 w) as [[response | err] w1];
      cbn [fst snd issues allIssues apiErrorOccurred List.length app];
      rewrite ?andb_false_r; split; reflexivity. }
  destruct Hrun as [Hworld Hissues].
  split; [now rewrite Hnone |].
  split; [exact Hworld |].
  split; [| exact Hissues].
  rewrite Hworld.
  destruct (callGroqWithRetry_trace JSON_parse prompt w) as [k [Hk [Hreq _]]].
  exists k. split; assumption.
Qed.

Lemma empty_batch_is_requested_witness :
  let fs := [Sample.mkFile "gone.ts" removed (Sample.patchOf 10)] in
  let w := Sample.scripted [HttpResponse 429 "slow down"; HttpTimeout] in
  exists k,
    1 <= k <= 3
    /\ requests (snd (reviewPullRequest json_parse 1 "title" "branch" "head"
                        fs [] [] w))
       = requests w ++ List.repeat (buildReviewPrompt [] [] []) k.
Proof.
  exact (proj1 (proj2 (proj2 (empty_batch_is_requested json_parse 1
           "title" "branch" "head"
           [Sample.mkFile "gone.ts" removed (Sample.patchOf 10)] [] []
           (Sample.scripted [HttpResponse 429 "slow down"; HttpTimeout])
           eq_refl)))).
Defined.

(** C5: the code adds the issue of a failed review although the remote
    call of the first batch succeeded.  Two files of 20,000 characters
    make two batches; the first call answers with an empty array, the
    second with status 500. *)
Theorem synthetic_issue_despite_success :
  let a := Sample.mkFile "a.ts" modified (Sample.patchOf 20000) in
  let b := Sample.mkFile "b.ts" modified (Sample.patchOf 20000) in
  let w := Sample.scripted [HttpResponse 200 (Sample.completion "[]");
                            HttpResponse 500 "boom"] in
  let r := fst (reviewPullRequest json_parse 1 "title" "branch" "head"
                  [a; b] [] [] w) in
  List.map (List.map filename) (batchFiles (List.filter reviewable [a; b]) 25000)
  = [["a.ts"%string]; ["b.ts"%string]]
  /\ fst (callGroqWithRetry json_parse (buildReviewPrompt [a] [] []) 3 w)
     = Returned (JStr "[]")
  /\ issues r = [apiErrorIssue "a.ts" "Groq API 500: boom"]
  /\ rr_status r = fail.
Proof. cbv zeta. repeat split; vm_compute; reflexivity. Qed.

(** C6: the code retries a failure that is not a rate limit.  The first
    response has status 500 and a body that contains the digits 429; the
    call waits ten seconds and posts the prompt again. *)
Theorem retried_on_status_500 :
  let w := Sample.scripted [HttpResponse 500 "bad gateway (ref 429)";
                            HttpResponse 200 (Sample.completion "[]")] in
  let run := callGroqWithRetry json_parse "prompt" 3 w in
  fst (callGroq json_parse "prompt" w)
  = Thrown "Groq API 500: bad gateway (ref 429)"
  /\ fst run = Returned (JStr "[]")
  /\ requests (snd run) = ["prompt"%string; "prompt"%string]
  /\ sleeps (snd run) = [1 * 10 * 1000].
Proof. vm_compute. repeat split. Qed.

(* ================================================================== *)
(** * The response parser *)
(* ================================================================== *)

Section ParserFacts.
Variable JSON_parse : string -> Json + string.

Local Open Scope string_scope.

Lemma upToLastClose_some (s r : string) :
  upToLastClose s = Some r ->
  exists mid post,
    s = mid ++ "]" ++ post /\ Spec.absent "]" post = true /\ r = mid ++ "]".
Proof.
  revert r. induction s as [| c s IH]; intros r H; [discriminate |].
  cbn [upToLastClose] in H. destruct (upToLastClose s) as [r' |] eqn:Hs.
  - injection H as <-. destruct (IH r' eq_refl) as [mid [post [-> [Hpost ->]]]].
    exists (String c mid), post. repeat split. exact Hpost.
  - destruct (Ascii.eqb_spec c "]") as [-> | Hc]; [| discriminate].
    injection H as <-. exists "", s. repeat split.
    clear IH. induction s as [| d s IHs]; [reflexivity |].
    cbn [upToLastClose] in Hs. destruct (upToLastClose s); [discriminate |].
    destruct (Ascii.eqb_spec d "]") as [-> | Hd]; [discriminate |].
    cbn [Spec.absent]. rewrite (IHs eq_refl), andb_true_r.
    apply negb_true_iff. apply Ascii.eqb_neq. congruence.
Qed.

Lemma upToLastClose_found (mid post : string) :
  upToLastClose (mid ++ "]" ++ post) <> None.
Proof.
  induction mid as [| c mid IH].
  - cbn. destruct (upToLastClose post); discriminate.
  - change (String c mid ++ "]" ++ post) with (String c (mid ++ "]" ++ post)).
    cbn [upToLastClose]. destruct (upToLastClose (mid ++ "]" ++ post));
      [discriminate | contradiction].
Qed.

Lemma matchArray_some (s m : string) :
  matchArray s = Some m -> Spec.firstToLast s m.
Proof.
  induction s as [| c s IH]; intro H; [discriminate |].
  cbn [matchArray] in H. destruct (Ascii.eqb_spec c "[") as [-> | Hc].
  - destruct (upToLastClose s) as [r |] eqn:Hs; [| discriminate].
    injection H as <-.
    destruct (upToLastClose_some s Hs) as [mid [post [-> [Hpost ->]]]].
    exists "", mid, post. repeat split. exact Hpost.
  - destruct (IH H) as [pre [mid [post [-> [Hpre [Hpost ->]]]]]].
    exists (String c pre), mid, post. repeat split; [| exact Hpost].
    cbn [Spec.absent]. rewrite Hpre, andb_true_r.
    apply negb_true_iff. apply Ascii.eqb_neq. congruence.
Qed.

Lemma matchArray_none (s : string) :
  matchArray s = None -> forall m, ~ Spec.firstToLast s m.
Proof.
  intros H m [pre [mid [post [-> [Hpre _]]]]].
  induction pre as [| c pre IH].
  - cbn in H. pose proof (upToLastClose_found mid post) as Hfound.
    cbn in Hfound. destruct (upToLastClose (mid ++ String "]" post));
      [discriminate | contradiction].
  - cbn [Spec.absent] in Hpre. apply andb_true_iff in Hpre.
    destruct Hpre as [Hc Hpre]. apply negb_true_iff in Hc.
    change (String c pre ++ "[" ++ mid ++ "]" ++ post)
      with (String c (pre ++ "[" ++ mid ++ "]" ++ post)) in H.
    cbn [matchArray] in H. rewrite Ascii.eqb_sym, Hc in H. now apply IH.
Qed.

(** [parseAIResponse] never throws: whatever the [try] block ends in, the
    result is a list. *)
Lemma parseAIResponse_of_body (response : Json) :
  parseAIResponse JSON_parse response
  = match parseBody JSON_parse response with
    | Returned l => l
    | Thrown _ => []
    end.
Proof. reflexivity. Qed.

Lemma parseAIResponse_no_match (text : string) :
  matchArray (cleanedOf text) = None ->
  parseAIResponse JSON_parse (JStr text) = [].
Proof.
  intro H. unfold parseAIResponse, parseBody. now rewrite H.
Qed.

Lemma parseAIResponse_not_array (text m : string) :
  matchArray (cleanedOf text) = Some m ->
  (forall parsed, JSON_parse m <> inl (JArr parsed)) ->
  parseAIResponse JSON_parse (JStr text) = [].
Proof.
  intros H Hno. unfold parseAIResponse, parseBody. rewrite H.
  destruct (JSON_parse m) as [[| | | | parsed |] | e]; try reflexivity.
  now elim (Hno parsed).
Qed.

Lemma parseAIResponse_array (text m : string) (parsed : list Json) :
  matchArray (cleanedOf text) = Some m ->
  JSON_parse m = inl (JArr parsed) ->
  parseAIResponse JSON_parse (JStr text)
  = match mapItems 0 (List.filter hasMessage parsed) with
    | Returned l => l
    | Thrown _ => []
    end.
Proof.
  intros H Hp. unfold parseAIResponse, parseBody. now rewrite H, Hp.
Qed.
End ParserFacts.

(** C7, as stated, fails: the text handed to [JSON.parse] is not the first
    complete JSON array of the response.  The response below starts with
    a complete array that holds an issue; the parser takes the text up to
    the last closing bracket, which is not JSON, and yields no issue. *)
Lemma bracket_span_is_not_first_array :
  let first := ("[{" ++ JsString.quoted "message" ++ ":"
                ++ JsString.quoted "m" ++ "}]")%string in
  let text := (first ++ " (see rule [3])")%string in
  Spec.firstJsonArray json_parse (cleanedOf text) = Some first
  /\ matchArray (cleanedOf text) = Some (first ++ " (see rule [3]")%string
  /\ parseAIResponse json_parse (JStr text) = []
  /\ List.length (parseAIResponse json_parse (JStr first)) = 1.
Proof. vm_compute. repeat split. Qed.

(** C7, amended: for every response string, parsing trims it, strips a
    leading fence (three backquotes, then [json] and a line feed when
    present) and a trailing fence only when the trimmed text starts with a
    fence, and takes the text from the first opening bracket to the last
    closing bracket (not the first complete JSON array).  It yields zero
    issues, and no error, when there is no such text or when that text
    does not parse as an array; otherwise the issues are those of the
    items of the array that have a message.  The payload of the example
    yields zero issues, and a review that receives it adds no issue of its
    own. *)
Theorem parse_reads_bracket_span (JSON_parse : string -> Json + string)
    (text : string) :
  let cleaned := cleanedOf text in
  cleaned = (if JsString.startsWith (JsString.trim text) "```"
             then stripTrailingFence (stripLeadingFence (JsString.trim text))
             else JsString.trim text)
  /\ (forall m, matchArray cleaned = Some m -> Spec.firstToLast cleaned m)
  /\ (matchArray cleaned = None ->
      (forall m, ~ Spec.firstToLast cleaned m)
      /\ parseAIResponse JSON_parse (JStr text) = [])
  /\ (forall m,
        matchArray cleaned = Some m ->
        (forall parsed, JSON_parse m <> inl (JArr parsed)) ->
        parseAIResponse JSON_parse (JStr text) = [])
  /\ (forall m parsed,
        matchArray cleaned = Some m ->
        JSON_parse m = inl (JArr parsed) ->
        parseAIResponse JSON_parse (JStr text)
        = match mapItems 0 (List.filter hasMessage parsed) with
          | Returned l => l
          | Thrown _ => []
          end)
  /\ (let payload := ("Sure! ```json" ++ JsString.nl ++ "[]" ++ JsString.nl ++ "```")%string in
      let f := Sample.mkFile "a.ts" modified (Sample.patchOf 10) in
      let w := Sample.scripted
                 [HttpResponse 200 (Sample.completion "Sure! ```json\n[]\n```")] in
      parseAIResponse json_parse (JStr payload) = []
      /\ fst (callGroqWithRetry json_parse (buildReviewPrompt [f] [] []) 3 w)
         = Returned (JStr payload)
      /\ issues (fst (reviewPullRequest json_parse 1 "title" "branch" "head"
                        [f] [] [] w)) = []).
Proof.
  cbv zeta. split; [reflexivity |].
  split; [intros m; apply matchArray_some |].
  split.
  { intro H. split; [now apply matchArray_none |].
    now apply parseAIResponse_no_match. }
  split; [intros m; apply parseAIResponse_not_array |].
  split; [intros m parsed; apply parseAIResponse_array |].
  repeat split; vm_compute; reflexivity.
Qed.

Lemma parse_reads_bracket_span_witness :
  let text := ("```json" ++ JsString.nl ++ "no issue [found" ++ JsString.nl ++ "```")%string in
  cleanedOf text = "no issue [found"%string
  /\ matchArray (cleanedOf text) = None
  /\ parseAIResponse json_parse (JStr text) = [].
Proof.
  cbv zeta. split; [reflexivity |]. split; [reflexivity |].
  apply (proj1 (proj2 (proj2 (parse_reads_bracket_span json_parse
           ("```json" ++ JsString.nl ++ "no issue [found" ++ JsString.nl ++ "```"))))).
  reflexivity.
Defined.

(* ================================================================== *)
(** * The webhook gateway *)
(* ================================================================== *)

Section GatewayFacts.
Variable JSON_parse : string -> Json + string.
Variable hmac_sha256_hex : string -> string -> string.
Variable secret : string.
Variable now : string.

Local Open Scope string_scope.







Lemma bytes_eqb_refl (a : list ascii) : bytes_eqb a a = true.
Proof.
  induction a as [| x a IH]; [reflexivity |].
  cbn. now rewrite Ascii.eqb_refl, IH.
Qed.

Lemma bytes_eqb_eq (a b : list ascii) : bytes_eqb a b = true -> a = b.
Proof.
  revert b. induction a as [| x a IH]; intros [| y b] H; try discriminate.
  - reflexivity.
  - cbn in H. apply andb_true_iff in H. destruct H as [Hxy Hab].
    apply Ascii.eqb_eq in Hxy. subst y. f_equal. now apply IH.
Qed.

(** A body signed with the secret passes the check. *)
Lemma verifySignature_signed (payload : string) :
  verifySignature hmac_sha256_hex secret payload
    (Some ("sha256=" ++ hmac_sha256_hex secret payload))
  = Returned true.
Proof.
  unfold verifySignature, timingSafeEqual.
  change (String.eqb ("sha256=" ++ hmac_sha256_hex secret payload) "") with false.
  cbv iota. now rewrite Nat.eqb_refl, bytes_eqb_refl.
Qed.

(** The check passes only for a header with the bytes of the digest. *)
Lemma verifySignature_true (payload : string) (signature : option string) :
  verifySignature hmac_sha256_hex secret payload signature = Returned true ->
  exists sig,
    signature = Some sig
    /\ Buffer_from sig
       = Buffer_from ("sha256=" ++ hmac_sha256_hex secret payload).
Proof.
  unfold verifySignature, timingSafeEqual. intro H.
  destruct signature as [sig |]; [| discriminate].
  exists sig. split; [reflexivity |].
  destruct (String.eqb sig ""); [discriminate |].
  destruct (negb _); [discriminate |].
  injection H as H. now apply bytes_eqb_eq.
Qed.

(** Without the header the answer is 401 and nothing is fired. *)
Lemma missing_signature_401 (req : IncomingMessage) :
  secret <> "" ->
  x_hub_signature_256 req = None ->
  onEnd JSON_parse hmac_sha256_hex secret req
  = respond 401 [("error", Some (JStr "Invalid signature"))].
Proof.
  intros Hs Hsig. unfold onEnd. rewrite Hsig.
  apply String.eqb_neq in Hs. rewrite Hs. reflexivity.
Qed.

(** A header of the length of the digest with other bytes: 401. *)
Lemma wrong_signature_401 (req : IncomingMessage) (sig : string) :
  secret <> "" ->
  x_hub_signature_256 req = Some sig ->
  sig <> "" ->
  List.length (Buffer_from sig)
  = List.length (Buffer_from ("sha256=" ++ hmac_sha256_hex secret (body req))) ->
  Buffer_from sig <> Buffer_from ("sha256=" ++ hmac_sha256_hex secret (body req)) ->
  onEnd JSON_parse hmac_sha256_hex secret req
  = respond 401 [("error", Some (JStr "Invalid signature"))].
Proof.
  intros Hs Hsig Hne Hlen Hdiff. unfold onEnd. rewrite Hsig.
  apply String.eqb_neq in Hs. rewrite Hs. cbn [negb].
  unfold verifySignature, timingSafeEqual.
  apply String.eqb_neq in Hne. rewrite Hne, Hlen, Nat.eqb_refl. cbn [negb].
  destruct (bytes_eqb _ _) eqn:Heq; [| reflexivity].
  apply bytes_eqb_eq in Heq. contradiction.
Qed.
End GatewayFacts.




(** C9: the gateway does not answer 401 to a signature header whose
    length is not that of the digest: the comparison throws, no response
    is written and the error escapes the handler.  The header here is
    [bad], the secret [s3cret]; the body, the event type and the digest
    function are arbitrary. *)
Theorem short_signature_throws (JSON_parse : string -> Json + string)
    (hmac_sha256_hex : string -> string -> string) (now : string)
    (event : option string) (payload : string) :
  let req := {| method := "POST"; url := "/webhook";
                x_hub_signature_256 := Some "bad"%string;
                x_github_event := event; body := payload |} in
  let h := handleRequest JSON_parse hmac_sha256_hex "s3cret" now req in
  verifySignature hmac_sha256_hex "s3cret" payload (Some "bad"%string)
  = Thrown "RangeError [ERR_CRYPTO_TIMING_SAFE_EQUAL_LENGTH]: Input buffers must have the same byte length"
  /\ response h = None
  /\ fired h = []
  /\ uncaught h
     = Some "RangeError [ERR_CRYPTO_TIMING_SAFE_EQUAL_LENGTH]: Input buffers must have the same byte length"%string.
Proof.
  cbv zeta.
  assert (Hv : verifySignature hmac_sha256_hex "s3cret" payload (Some "bad"%string)
               = Thrown "RangeError [ERR_CRYPTO_TIMING_SAFE_EQUAL_LENGTH]: Input buffers must have the same byte length").
  { unfold verifySignature, timingSafeEqual. reflexivity. }
  split; [exact Hv |].
  unfold handleRequest, onEnd.
  cbn [method url x_hub_signature_256 body String.eqb Ascii.eqb Bool.eqb negb andb].
  rewrite Hv. repeat split.
Qed.

(* ================================================================== *)
(** * Further properties of the batching *)
(* ================================================================== *)

Section BatchingBounds.
Variable maxChars : nat.

Lemma batchSize_app (a b : list PRFile) :
  batchSize (a ++ b) = batchSize a + batchSize b.
Proof.
  induction a as [| f a IH]; [reflexivity |].
  cbn [app batchSize fold_right]. fold (batchSize (a ++ b)) (batchSize a).
  rewrite IH. lia.
Qed.

Lemma greedy_bounded (fs : list PRFile) :
  forall cur size,
    size = batchSize cur ->
    size <= maxChars \/ List.length cur <= 1 ->
    Forall (fun b => batchSize b <= maxChars \/ List.length b <= 1)
           (Spec.greedy maxChars cur size fs).
Proof.
  induction fs as [| f fs IH]; intros cur size Hsize Hinv; subst size;
    cbn [Spec.greedy].
  - destruct cur; constructor; [| constructor]. exact Hinv.
  - destruct (Nat.ltb maxChars (batchSize cur + patchSize f)) eqn:Hover; cbn [andb].
    + rewrite nonempty_length. destruct cur as [| c cur'].
      * apply IH; [cbn; lia | right; cbn; lia].
      * constructor; [exact Hinv |].
        apply IH; [cbn; lia | right; cbn; lia].
    + apply Nat.ltb_ge in Hover. apply IH.
      * rewrite batchSize_app. cbn. lia.
      * left. exact Hover.
Qed.

Lemma greedy_head (fs : list PRFile) :
  forall c cur size,
    exists ext bs,
      Spec.greedy maxChars (c :: cur) size fs = ((c :: cur) ++ ext) :: bs.
Proof.
  induction fs as [| f fs IH]; intros c cur size; cbn [Spec.greedy].
  - exists [], []. now rewrite app_nil_r.
  - destruct (_ && _).
    + exists [], (Spec.greedy maxChars [f] (patchSize f) fs). now rewrite app_nil_r.
    + destruct (IH c (cur ++ [f]) (size + patchSize f)) as [ext [bs E]].
      exists (f :: ext), bs. cbn [app] in E |- *. rewrite E.
      now rewrite <- app_assoc.
Qed.

Lemma greedy_closedWhenFull (fs : list PRFile) :
  forall cur size,
    size = batchSize cur ->
    closedWhenFull maxChars (Spec.greedy maxChars cur size fs).
Proof.
  induction fs as [| f fs IH]; intros cur size Hsize; subst size;
    cbn [Spec.greedy].
  - destruct cur; exact I.
  - destruct (Nat.ltb maxChars (batchSize cur + patchSize f)) eqn:Hover; cbn [andb].
    + rewrite nonempty_length. destruct cur as [| c cur'].
      * apply IH. cbn. lia.
      * pose proof (IH [f] (patchSize f)) as Hrest.
        destruct (greedy_head fs f [] (patchSize f)) as [ext [bs E]].
        rewrite E in Hrest |- *. cbn [closedWhenFull app]. split.
        -- apply Nat.ltb_lt in Hover. exact Hover.
        -- apply Hrest. cbn. lia.
    + apply IH. rewrite batchSize_app. cbn. lia.
Qed.
End BatchingBounds.

(** X1: every batch made by [batchFiles] stays within the ceiling, unless
    it holds a single file (a file larger than the ceiling is sent
    alone). *)
Theorem batch_within_ceiling (fs : list PRFile) (maxChars : nat) :
  Forall (fun b => batchSize b <= maxChars \/ List.length b = 1)
         (batchFiles fs maxChars).
Proof.
  rewrite batchFiles_batching. destruct fs as [| f fs].
  - constructor; [left; cbn; lia | constructor].
  - cbn [Spec.batching].
    pose proof (@greedy_bounded maxChars (f :: fs) [] 0 eq_refl
                  (or_intror (Nat.le_0_l 1))) as H.
    pose proof (@greedy_nonempty maxChars (f :: fs) [] 0) as Hne.
    rewrite Forall_forall in H, Hne |- *. intros b Hb.
    destruct (H b Hb) as [Hfit | Hone]; [now left |].
    right. specialize (Hne b Hb). destruct b as [| x [| y b]];
      [contradiction | reflexivity | cbn in Hone; lia].
Qed.

(** X2: [batchFiles] closes a batch only when it must: the first file of
    each later batch would have carried the batch before it over the
    ceiling. *)
Theorem batch_closed_only_when_full (fs : list PRFile) (maxChars : nat) :
  closedWhenFull maxChars (batchFiles fs maxChars).
Proof.
  rewrite batchFiles_batching. destruct fs as [| f fs]; [exact I |].
  cbn [Spec.batching]. now apply greedy_closedWhenFull.
Qed.

(* ================================================================== *)
(** * Further properties of the remote call *)
(* ================================================================== *)

Section RemoteCallFacts.
Variable JSON_parse : string -> Json + string.

Local Open Scope string_scope.

Lemma callGroq_notOk (prompt : string) (w : World) :
  notOk (net w (List.length (requests w)) prompt) ->
  exists e, callGroq JSON_parse prompt w = (Thrown e, recordRequest prompt w).
Proof.
  intro H. unfold callGroq.
  destruct (net w (List.length (requests w)) prompt) as [code data | msg |].
  - cbn in H. rewrite (readResponse_not_200 JSON_parse data H). eauto.
  - eauto.
  - eauto.
Qed.

Lemma retryLoop_all_fail (prompt : string) (maxRetries : nat) :
  forall left attempt w,
    left + attempt = maxRetries + 1 ->
    0 < left ->
    (forall n p, notOk (net w n p)) ->
    exists e w',
      retryLoop JSON_parse left attempt maxRetries prompt w = (Thrown e, w')
      /\ net w' = net w.
Proof.
  induction left as [| left IH]; intros attempt w Hinv Hpos Hfail; [lia |].
  cbn [retryLoop]. unfold tryCatch.
  destruct (callGroq_notOk prompt w (Hfail _ _)) as [e ->].
  destruct (JsString.includes e "429" && Nat.ltb attempt maxRetries) eqn:Hretry.
  - apply andb_true_iff in Hretry. destruct Hretry as [_ Hlt].
    apply Nat.ltb_lt in Hlt. unfold bind, sleep.
    match goal with
    | |- exists e0 w0, retryLoop _ _ _ _ _ ?w2 = _ /\ _ =>
        destruct (IH (attempt + 1) w2) as [e' [w' [Hrun Hnet]]];
          [lia | lia | exact Hfail |]
    end.
    exists e', w'. split; [exact Hrun | exact Hnet].
  - unfold throw. eauto.
Qed.

Lemma callGroqWithRetry_net (prompt : string) (w : World) :
  net (snd (callGroqWithRetry JSON_parse prompt 3 w)) = net w.
Proof.
  destruct (callGroqWithRetry JSON_parse prompt 3 w) as [o w'] eqn:Hrun.
  unfold callGroqWithRetry in Hrun.
  apply retryLoop_trace in Hrun; [| lia | lia].
  destruct Hrun as [k [_ [_ [_ [Hnet _]]]]]. exact Hnet.
Qed.

Lemma reviewBatches_all_fail (cats rules : list string) :
  forall bs st w,
    (forall n p, notOk (net w n p)) ->
    allIssues st = [] ->
    bs <> [] \/ apiErrorOccurred st = true ->
    let st' := fst (reviewBatches JSON_parse cats rules st bs w) in
    allIssues st' = [] /\ apiErrorOccurred st' = true.
Proof.
  induction bs as [| b bs IH]; intros st w Hfail Hnone Hflag.
  - cbn. destruct Hflag as [H | H]; [now elim H | auto].
  - cbn [reviewBatches]. unfold reviewBatch.
    destruct (@retryLoop_all_fail (buildReviewPrompt b cats rules) 3 3 1 w
                eq_refl (Nat.lt_0_succ 2) Hfail)
      as [e [w' [Hrun Hnet]]].
    unfold callGroqWithRetry. rewrite Hrun.
    apply IH.
    + intros n p. rewrite Hnet. apply Hfail.
    + exact Hnone.
    + right. reflexivity.
Qed.

(** The requests of the loop over the batches: for each batch in turn,
    its prompt between one and three times. *)
Lemma reviewBatches_requests (cats rules : list string) :
  forall bs st w,
    exists ks,
      Forall2 (fun (_ : list PRFile) k => 1 <= k <= 3) bs ks
      /\ requests (snd (reviewBatches JSON_parse cats rules st bs w))
         = (requests w
            ++ List.concat
                 (List.map (fun bk => List.repeat
                                        (buildReviewPrompt (fst bk) cats rules)
                                        (snd bk))
                           (List.combine bs ks)))%list.
Proof.
  induction bs as [| b bs IH]; intros st w.
  - exists []. split; [constructor |]. cbn. now rewrite app_nil_r.
  - cbn [reviewBatches]. unfold reviewBatch.
    destruct (callGroqWithRetry_trace JSON_parse (buildReviewPrompt b cats rules) w)
      as [k [Hk [Hreq _]]].
    destruct (callGroqWithRetry JSON_parse (buildReviewPrompt b cats rules) 3 w)
      as [[response | err] w1]; cbn [snd] in Hreq.
    + match goal with
      | |- context [reviewBatches _ _ _ ?st1 bs w1] =>
          destruct (IH st1 w1) as [ks [Hks Hrest]]
      end.
      exists (k :: ks). split; [now constructor |].
      rewrite Hrest, Hreq. cbn [List.combine List.map List.concat fst snd].
      now rewrite <- app_assoc.
    + match goal with
      | |- context [reviewBatches _ _ _ ?st1 bs w1] =>
          destruct (IH st1 w1) as [ks [Hks Hrest]]
      end.
      exists (k :: ks). split; [now constructor |].
      rewrite Hrest, Hreq. cbn [List.combine List.map List.concat fst snd].
      now rewrite <- app_assoc.
Qed.

Lemma readResponse_returned (statusCode : nat) (data : string) (content : Json) :
  readResponse JSON_parse statusCode data = Returned content ->
  statusCode = 200
  /\ (exists json, JSON_parse data = inl json)
  /\ JsValue.truthy (Some content) = true.
Proof.
  unfold readResponse. intro H.
  destruct (Nat.eqb_spec statusCode 200) as [-> | Hne]; [| discriminate].
  cbn [negb] in H. split; [reflexivity |].
  destruct (JSON_parse data) as [json | e]; [| discriminate].
  split; [eauto |].
  match type of H with
  | match ?t with _ => _ end = _ => destruct t as [v |] eqn:Ht
  end; [| discriminate].
  destruct (JsValue.truthy (Some v)) eqn:Htruthy; [| discriminate].
  cbn [negb] in H. injection H as <-. exact Htruthy.
Qed.

Lemma review_world (n : Z) (title branch head : string) (fs : list PRFile)
    (cats rules : list string) (w : World) :
  snd (reviewPullRequest JSON_parse n title branch head fs cats rules w)
  = snd (reviewBatches JSON_parse cats rules
           {| allIssues := []; apiErrorOccurred := false; lastApiError := "" |}
           (batchFiles (List.filter reviewable fs) 25000) w).
Proof.
  unfold reviewPullRequest.
  destruct (reviewBatches JSON_parse cats rules _ _ w) as [st w']. reflexivity.
Qed.
End RemoteCallFacts.

(** X3: one call of [callGroqWithRetry] posts the prompt at least once and
    at most three times, waits [attempt * 10] seconds before each further
    attempt (so 10 s, then 20 s) and at no other moment, and leaves the
    rest of the world as it was. *)
Theorem retry_posts_one_to_three_times (JSON_parse : string -> Json + string)
    (prompt : string) (w : World) :
  let w' := snd (callGroqWithRetry JSON_parse prompt 3 w) in
  exists k,
    1 <= k <= 3
    /\ requests w' = requests w ++ List.repeat prompt k
    /\ sleeps w' = sleeps w ++ List.map (fun a => a * 10 * 1000) (List.seq 1 (k - 1))
    /\ net w' = net w
    /\ clock w' = clock w.
Proof.
  cbv zeta.
  destruct (callGroqWithRetry JSON_parse prompt 3 w) as [o w'] eqn:Hrun.
  unfold callGroqWithRetry in Hrun.
  apply retryLoop_trace in Hrun; [| lia | lia]. exact Hrun.
Qed.

(** X4: when the service answers 429 three times in a row, the call posts
    the prompt three times, waits 10 s and then 20 s, and throws the error
    of the third response. *)
Theorem rate_limit_exhausts_retries (JSON_parse : string -> Json + string)
    (prompt : string) (w : World) (d1 d2 d3 : string) :
  net w (List.length (requests w)) prompt = HttpResponse 429 d1 ->
  net w (S (List.length (requests w))) prompt = HttpResponse 429 d2 ->
  net w (S (S (List.length (requests w)))) prompt = HttpResponse 429 d3 ->
  let run := callGroqWithRetry JSON_parse prompt 3 w in
  fst run = Thrown (statusError JSON_parse 429 d3)
  /\ requests (snd run) = requests w ++ [prompt; prompt; prompt]
  /\ sleeps (snd run) = sleeps w ++ [1 * 10 * 1000; 2 * 10 * 1000].
Proof.
  intros H1 H2 H3 run. subst run.
  rewrite (rate_limited_thrice JSON_parse prompt w H1 H2 H3).
  repeat split.
Qed.

Lemma rate_limit_exhausts_retries_witness :
  let w := Sample.scripted [HttpResponse 429 "slow"; HttpResponse 429 "slow";
                            HttpResponse 429 "down"] in
  let run := callGroqWithRetry json_parse "prompt" 3 w in
  fst run = Thrown (statusError json_parse 429 "down")
  /\ requests (snd run) = ["prompt"; "prompt"; "prompt"]%string
  /\ sleeps (snd run) = [1 * 10 * 1000; 2 * 10 * 1000].
Proof.
  exact (rate_limit_exhausts_retries json_parse "prompt"
           (Sample.scripted [HttpResponse 429 "slow"; HttpResponse 429 "slow";
                             HttpResponse 429 "down"])
           (d1 := "slow") (d2 := "slow") (d3 := "down")
           eq_refl eq_refl eq_refl).
Defined.

(** X5: a request that times out is not retried: the call posts the
    prompt once, does not wait, and throws the timeout error. *)
Theorem timeout_is_not_retried (JSON_parse : string -> Json + string)
    (prompt : string) (w : World) :
  net w (List.length (requests w)) prompt = HttpTimeout ->
  callGroqWithRetry JSON_parse prompt 3 w
  = (Thrown "Groq API timeout (90s)", recordRequest prompt w).
Proof.
  intro H.
  apply (no_retry_without_429 JSON_parse prompt w (w1 := recordRequest prompt w)).
  - unfold callGroq. now rewrite H.
  - reflexivity.
Qed.

Lemma timeout_is_not_retried_witness :
  let w := Sample.scripted [] in
  let run := callGroqWithRetry json_parse "prompt" 3 w in
  fst run = Thrown "Groq API timeout (90s)"
  /\ requests (snd run) = ["prompt"%string]
  /\ sleeps (snd run) = [].
Proof.
  cbv zeta.
  rewrite (timeout_is_not_retried json_parse "prompt" (Sample.scripted []) eq_refl).
  repeat split.
Defined.

(** X6: after one answer 429, a second attempt that succeeds gives the
    result of the call: two requests and one wait of 10 s. *)
Theorem recovers_after_rate_limit (JSON_parse : string -> Json + string)
    (prompt : string) (w : World) (d1 d2 : string) (content : Json) :
  net w (List.length (requests w)) prompt = HttpResponse 429 d1 ->
  net w (S (List.length (requests w))) prompt = HttpResponse 200 d2 ->
  readResponse JSON_parse 200 d2 = Returned content ->
  let run := callGroqWithRetry JSON_parse prompt 3 w in
  fst run = Returned content
  /\ requests (snd run) = requests w ++ [prompt; prompt]
  /\ sleeps (snd run) = sleeps w ++ [1 * 10 * 1000].
Proof.
  intros H1 H2 Hok run. subst run.
  assert (H429 : 429 <> 200) by (intro E; vm_compute in E; discriminate E).
  assert (E : callGroqWithRetry JSON_parse prompt 3 w
              = (Returned content,
                 {| net := net w;
                    requests := (requests w ++ [prompt]) ++ [prompt];
                    sleeps := sleeps w ++ [1 * 10 * 1000];
                    clock := clock w |})).
  { unfold callGroqWithRetry. cbn [retryLoop]. unfold tryCatch, bind, sleep, throw.
    unfold callGroq at 1. rewrite H1, (readResponse_not_200 JSON_parse d1 H429).
    rewrite statusError_429. cbn [andb Nat.ltb Nat.leb].
    unfold callGroq at 1. cbn [requests net recordRequest].
    rewrite length_app. cbn [List.length]. rewrite Nat.add_1_r, H2, Hok.
    reflexivity. }
  rewrite E. cbn [fst snd requests sleeps].
  split; [reflexivity |]. split; [| reflexivity].
  now rewrite <- app_assoc.
Qed.

Lemma recovers_after_rate_limit_witness :
  let w := Sample.scripted [HttpResponse 429 "slow down";
                            HttpResponse 200 (Sample.completion "[]")] in
  let run := callGroqWithRetry json_parse "prompt" 3 w in
  fst run = Returned (JStr "[]")
  /\ requests (snd run) = ["prompt"; "prompt"]%string
  /\ sleeps (snd run) = [1 * 10 * 1000].
Proof.
  exact (recovers_after_rate_limit json_parse "prompt"
           (Sample.scripted [HttpResponse 429 "slow down";
                             HttpResponse 200 (Sample.completion "[]")])
           (d1 := "slow down") (d2 := Sample.completion "[]")
           (content := JStr "[]") eq_refl eq_refl eq_refl).
Defined.



(** X8: a review posts the prompt of every batch, in the order of the
    batches, each at least once and at most three times, whatever the
    earlier batches ended in: the failure of one batch does not stop the
    batches after it. *)
Theorem every_batch_is_requested (JSON_parse : string -> Json + string)
    (n : Z) (title branch head : string) (fs : list PRFile)
    (cats rules : list string) (w : World) :
  let bs := batchFiles (List.filter reviewable fs) 25000 in
  let w' := snd (reviewPullRequest JSON_parse n title branch head fs cats rules w) in
  exists ks,
    Forall2 (fun (_ : list PRFile) k => 1 <= k <= 3) bs ks
    /\ requests w'
       = requests w
         ++ List.concat
              (List.map (fun bk => List.repeat
                                     (buildReviewPrompt (fst bk) cats rules)
                                     (snd bk))
                        (List.combine bs ks)).
Proof.
  cbv zeta. rewrite review_world. apply reviewBatches_requests.
Qed.

(** X9: when no request of a review gets a response with status 200 and
    the change-set has a reviewable file, the outcome holds exactly one
    issue, the error issue [ai-api-error] on the first reviewable file,
    and its status is [fail]. *)
Theorem total_failure_is_reported (JSON_parse : string -> Json + string)
    (n : Z) (title branch head : string) (fs : list PRFile)
    (cats rules : list string) (w : World) (first : PRFile)
    (others : list PRFile) :
  List.filter reviewable fs = first :: others ->
  (forall k p, notOk (net w k p)) ->
  let r := fst (reviewPullRequest JSON_parse n title branch head fs cats rules w) in
  (exists lastError, issues r = [apiErrorIssue (filename first) lastError])
  /\ rr_status r = fail
  /\ errors (summary r) = 1
  /\ totalIssues (summary r) = 1.
Proof.
  intros Hfirst Hfail r.
  assert (Hissues : exists lastError,
             issues r = [apiErrorIssue (filename first) lastError]).
  { subst r. unfold reviewPullRequest. rewrite Hfirst.
    assert (Hbs : batchFiles (first :: others) 25000 <> []).
    { intro E. pose proof (batchFiles_concat 25000 (first :: others)) as Hc.
      rewrite E in Hc. discriminate Hc. }
    pose proof (@reviewBatches_all_fail JSON_parse cats rules
                  (batchFiles (first :: others) 25000)
                  {| allIssues := []; apiErrorOccurred := false; lastApiError := "" |}
                  w Hfail eq_refl (or_introl Hbs)) as Hloop.
    cbv zeta in Hloop.
    destruct (reviewBatches JSON_parse cats rules _ _ w) as [st w'].
    cbn [fst] in Hloop. destruct Hloop as [Hnone Herr].
    cbn [fst issues]. rewrite Herr, Hnone. cbn. eauto. }
  destruct Hissues as [lastError Hissues]. split; [eauto |].
  destruct (review_shape JSON_parse n title branch head fs cats rules w)
    as [l [w' E]].
  subst r. rewrite E in Hissues |- *. cbn [fst issues summary rr_status] in *.
  subst l. repeat split.
Qed.

Lemma total_failure_is_reported_witness :
  let a := Sample.mkFile "a.ts" modified (Sample.patchOf 10) in
  let gone := Sample.mkFile "gone.ts" removed None in
  let r := fst (reviewPullRequest json_parse 1 "title" "branch" "head"
                  [gone; a] [] [] (Sample.scripted [])) in
  rr_status r = fail /\ errors (summary r) = 1.
Proof.
  cbv zeta.
  destruct (@total_failure_is_reported json_parse 1 "title" "branch" "head"
              [Sample.mkFile "gone.ts" removed None;
               Sample.mkFile "a.ts" modified (Sample.patchOf 10)]
              [] [] (Sample.scripted [])
              (Sample.mkFile "a.ts" modified (Sample.patchOf 10)) []
              eq_refl)
    as [_ [Hstatus [Herrors _]]].
  - intros k p. cbn. destruct k; exact I.
  - split; assumption.
Defined.

(* ================================================================== *)
(** * Further properties of the response parser *)
(* ================================================================== *)

Section DecimalFacts.
Local Open Scope string_scope.

Lemma string_app_assoc (a b c : string) : (a ++ b) ++ c = a ++ (b ++ c).
Proof.
  induction a as [| x a IH]; [reflexivity |]. cbn [append]. now rewrite IH.
Qed.

Lemma allDigits_string_of_uint (d : Decimal.uint) :
  allDigits (NilEmpty.string_of_uint d) = true.
Proof. induction d; cbn; auto. Qed.

Lemma allDigits_ofNat (n : nat) : allDigits (JsString.ofNat n) = true.
Proof. apply allDigits_string_of_uint. Qed.

Lemma string_of_uint_inj (d1 d2 : Decimal.uint) :
  NilEmpty.string_of_uint d1 = NilEmpty.string_of_uint d2 -> d1 = d2.
Proof.
  intro H. apply (f_equal NilEmpty.uint_of_string) in H.
  rewrite !NilEmpty.usu in H. now injection H.
Qed.

Lemma ofNat_inj (a b : nat) : JsString.ofNat a = JsString.ofNat b -> a = b.
Proof.
  intro H. apply string_of_uint_inj in H.
  now apply DecimalNat.Unsigned.to_uint_inj.
Qed.

Lemma digits_without_dash (s : string) :
  allDigits s = true -> Spec.absent "-" s = true.
Proof.
  induction s as [| c s IH]; [reflexivity |].
  cbn [allDigits Spec.absent]. intro H. apply andb_true_iff in H.
  destruct H as [Hc Hs]. rewrite (IH Hs), andb_true_r.
  destruct (Ascii.eqb_spec "-" c) as [<- | _]; [discriminate Hc | reflexivity].
Qed.

Lemma dash_is_present (x y : string) :
  Spec.absent "-" (x ++ String "-" y) = false.
Proof.
  induction x as [| c x IH]; [reflexivity |].
  cbn [append Spec.absent]. rewrite IH. apply andb_false_r.
Qed.

(** The text after the last dash of a string is determined by the
    string. *)
Lemma last_segment (a b d1 d2 : string) :
  Spec.absent "-" d1 = true ->
  Spec.absent "-" d2 = true ->
  a ++ "-" ++ d1 = b ++ "-" ++ d2 ->
  d1 = d2.
Proof.
  intros H1 H2. revert b.
  induction a as [| c a IH]; intros [| c' b] E; cbn [append] in E.
  - now injection E.
  - injection E as _ E. rewrite E, dash_is_present in H1. discriminate.
  - injection E as _ E. rewrite <- E, dash_is_present in H2. discriminate.
  - injection E as _ E. apply (IH b). exact E.
Qed.

Lemma numbered_suffix_inj (a b : string) (i j : nat) :
  a ++ "-" ++ JsString.ofNat i = b ++ "-" ++ JsString.ofNat j -> i = j.
Proof.
  intro E. apply ofNat_inj.
  apply (last_segment a b); [| | exact E];
    apply digits_without_dash, allDigits_ofNat.
Qed.
End DecimalFacts.

Section ItemFacts.
Variable JSON_parse : string -> Json + string.

Local Open Scope string_scope.

Lemma lowered_ok (v : option Json) :
  stringOrFalsy v = true -> exists key, lowered v = Returned key.
Proof.
  unfold stringOrFalsy, lowered. intro H.
  destruct (JsValue.truthy v); [| eauto].
  cbn in H. destruct v as [[| | | t | |] |]; try discriminate. eauto.
Qed.

Lemma lowered_fails (v : option Json) :
  stringOrFalsy v = false -> exists e, lowered v = Thrown e.
Proof.
  unfold stringOrFalsy, lowered. intro H.
  destruct (JsValue.truthy v); [| discriminate].
  cbn in H. destruct v as [[| | | t | |] |]; try discriminate; eauto.
Qed.

Lemma fileText_ok (v : option Json) :
  textOrFalsy v = true ->
  exists t,
    JsValue.toStr match JsValue.orElse v (Some (JStr "unknown")) with
                  | Some x => x
                  | None => JStr "unknown"
                  end
    = Some t.
Proof.
  unfold textOrFalsy, JsValue.orElse. intro H.
  destruct (JsValue.truthy v) eqn:Ht; [| cbn; eauto].
  cbn [negb orb] in H. destruct v as [j |]; [| discriminate Ht].
  cbn [JsValue.toString] in H. destruct (JsValue.toStr j); [eauto | discriminate].
Qed.

Lemma fileText_fails (v : option Json) :
  textOrFalsy v = false ->
  JsValue.toStr match JsValue.orElse v (Some (JStr "unknown")) with
                | Some x => x
                | None => JStr "unknown"
                end
  = None.
Proof.
  unfold textOrFalsy, JsValue.orElse. intro H.
  destruct (JsValue.truthy v) eqn:Ht; [| discriminate].
  cbn [negb orb] in H. destruct v as [j |]; [| discriminate Ht].
  cbn [JsValue.toString] in H. destruct (JsValue.toStr j); [discriminate | reflexivity].
Qed.

Lemma lineText_ok (v : option Json) (idx : nat) :
  textOrFalsy v = true ->
  exists t,
    (if JsValue.truthy v then JsValue.toString v else Some (JsString.ofNat idx))
    = Some t.
Proof.
  unfold textOrFalsy. intro H.
  destruct (JsValue.truthy v); [| eauto].
  cbn [negb orb] in H. destruct (JsValue.toString v); [eauto | discriminate].
Qed.

Lemma lineText_fails (v : option Json) (idx : nat) :
  textOrFalsy v = false ->
  (if JsValue.truthy v then JsValue.toString v else Some (JsString.ofNat idx))
  = None.
Proof.
  unfold textOrFalsy. intro H.
  destruct (JsValue.truthy v); [| discriminate].
  cbn [negb orb] in H. destruct (JsValue.toString v); [discriminate | reflexivity].
Qed.

Lemma issueOfItem_ok (item : Json) (idx : nat) :
  convertible item = true ->
  exists i,
    issueOfItem item idx = Returned i
    /\ message i = JsValue.optField (Some item) "message"
    /\ exists p, id i = p ++ "-" ++ JsString.ofNat idx.
Proof.
  unfold convertible, printable, normalizable. intro H.
  apply andb_true_iff in H. destruct H as [Hp Hn].
  apply andb_true_iff in Hp. destruct Hp as [Hfile Hline].
  apply andb_true_iff in Hn. destruct Hn as [Hsev Hcat].
  destruct (lowered_ok _ Hsev) as [ks Es], (lowered_ok _ Hcat) as [kc Ec].
  destruct (fileText_ok _ Hfile) as [ft Ef], (lineText_ok _ idx Hline) as [lt El].
  unfold issueOfItem, normalizeSeverity, normalizeCategory. cbv zeta.
  rewrite Ef, El, Es, Ec.
  eexists. split; [reflexivity |]. split; [reflexivity |].
  cbn [id]. exists ("ai-" ++ ft ++ "-" ++ lt).
  now rewrite !string_app_assoc.
Qed.

Lemma issueOfItem_fails (item : Json) (idx : nat) :
  convertible item = false -> exists e, issueOfItem item idx = Thrown e.
Proof.
  unfold convertible, printable, normalizable. intro H.
  unfold issueOfItem, normalizeSeverity, normalizeCategory. cbv zeta.
  destruct (textOrFalsy (JsValue.optField (Some item) "file")) eqn:Hfile.
  2:{ rewrite (fileText_fails _ Hfile). eexists. reflexivity. }
  destruct (fileText_ok _ Hfile) as [ft ->].
  destruct (textOrFalsy (JsValue.optField (Some item) "line")) eqn:Hline.
  2:{ rewrite (lineText_fails _ idx Hline). eexists. reflexivity. }
  destruct (lineText_ok _ idx Hline) as [lt ->].
  cbn [andb] in H. apply andb_false_iff in H.
  destruct (stringOrFalsy (JsValue.optField (Some item) "severity")) eqn:Hsev.
  - destruct H as [H | H]; [discriminate |].
    destruct (lowered_ok _ Hsev) as [ks ->].
    destruct (lowered_fails _ H) as [e ->]. eauto.
  - destruct (lowered_fails _ Hsev) as [e ->]. eauto.
Qed.

Lemma mapItems_ok (items : list Json) :
  forall idx,
    List.forallb convertible items = true ->
    exists l,
      mapItems idx items = Returned l
      /\ List.map message l
         = List.map (fun item => JsValue.optField (Some item) "message") items.
Proof.
  induction items as [| item items IH]; intros idx H.
  - exists []. split; reflexivity.
  - cbn [List.forallb] in H. apply andb_true_iff in H. destruct H as [Hi Hrest].
    destruct (issueOfItem_ok item idx Hi) as [i [Ei [Hm _]]].
    destruct (IH (S idx) Hrest) as [l [El Hl]].
    exists (i :: l). cbn [mapItems List.map]. rewrite Ei, El, Hm, Hl.
    split; reflexivity.
Qed.

Lemma mapItems_fails (items : list Json) :
  forall idx,
    List.forallb convertible items = false ->
    exists e, mapItems idx items = Thrown e.
Proof.
  induction items as [| item items IH]; intros idx H; [discriminate |].
  cbn [List.forallb] in H. cbn [mapItems].
  destruct (convertible item) eqn:Hi.
  - destruct (issueOfItem_ok item idx Hi) as [i [-> _]].
    destruct (IH (S idx) H) as [e ->]. eauto.
  - destruct (issueOfItem_fails item idx Hi) as [e ->]. eauto.
Qed.

(** The ids of the issues made from a list of items end in the positions
    of the items, counted from [idx]. *)
Lemma mapItems_ids (items : list Json) :
  forall idx l,
    mapItems idx items = Returned l ->
    Forall (fun i => exists p k, idx <= k /\ id i = p ++ "-" ++ JsString.ofNat k) l
    /\ NoDup (List.map id l).
Proof.
  induction items as [| item items IH]; intros idx l H.
  - injection H as <-. split; constructor.
  - cbn [mapItems] in H.
    destruct (issueOfItem item idx) as [i | e] eqn:Ei; [| discriminate].
    destruct (mapItems (S idx) items) as [l' | e] eqn:El; [| discriminate].
    injection H as <-. destruct (IH (S idx) l' El) as [Hform Hnd].
    assert (Hi : exists p, id i = p ++ "-" ++ JsString.ofNat idx).
    { destruct (convertible item) eqn:Hn.
      - destruct (issueOfItem_ok item idx Hn) as [i' [Ei' [_ Hp]]].
        rewrite Ei in Ei'. now injection Ei' as <-.
      - destruct (issueOfItem_fails item idx Hn) as [e Ee].
        rewrite Ei in Ee. discriminate. }
    destruct Hi as [p Hp]. split.
    + constructor.
      * exists p, idx. split; [lia | exact Hp].
      * eapply Forall_impl; [| exact Hform].
        intros j [q [k [Hk Hq]]]. exists q, k. split; [lia | exact Hq].
    + cbn [List.map]. constructor; [| exact Hnd].
      intro Hin. apply in_map_iff in Hin. destruct Hin as [j [Hj Hjin]].
      rewrite Forall_forall in Hform.
      destruct (Hform j Hjin) as [q [k [Hk Hq]]].
      rewrite Hp, Hq in Hj. apply numbered_suffix_inj in Hj. lia.
Qed.

Lemma parseAIResponse_ids (response : Json) :
  Forall (fun i => exists p k, id i = p ++ "-" ++ JsString.ofNat k)
         (parseAIResponse JSON_parse response)
  /\ NoDup (List.map id (parseAIResponse JSON_parse response)).
Proof.
  unfold parseAIResponse, parseBody.
  destruct response as [| | | text | |]; try (split; constructor).
  destruct (matchArray (cleanedOf text)) as [m |]; [| split; constructor].
  destruct (JSON_parse m) as [[| | | | parsed |] | e]; try (split; constructor).
  destruct (mapItems 0 (List.filter hasMessage parsed)) as [l | e] eqn:El;
    [| split; constructor].
  destruct (mapItems_ids _ _ El) as [Hform Hnd]. split; [| exact Hnd].
  eapply Forall_impl; [| exact Hform]. intros i [p [k [_ Hp]]]. eauto.
Qed.

Lemma parsed_id_not_api_error (i : ReviewIssue) :
  (exists p k, id i = p ++ "-" ++ JsString.ofNat k) ->
  id i <> "ai-api-error".
Proof.
  intros [p [k Hp]] E. rewrite Hp in E.
  change "ai-api-error" with ("ai-api" ++ "-" ++ "error") in E.
  apply last_segment in E;
    [| apply digits_without_dash, allDigits_ofNat | reflexivity].
  pose proof (allDigits_ofNat k) as Hd. rewrite E in Hd. discriminate Hd.
Qed.

Lemma reviewBatches_parsed (cats rules : list string) :
  forall bs st w,
    Forall (fun i => id i <> "ai-api-error") (allIssues st) ->
    Forall (fun i => id i <> "ai-api-error")
           (allIssues (fst (reviewBatches JSON_parse cats rules st bs w))).
Proof.
  induction bs as [| b bs IH]; intros st w H; [exact H |].
  cbn [reviewBatches]. unfold reviewBatch.
  destruct (callGroqWithRetry JSON_parse (buildReviewPrompt b cats rules) 3 w)
    as [[response | err] w1]; apply IH; cbn [allIssues]; [| exact H].
  apply Forall_app. split; [exact H |].
  eapply Forall_impl; [| exact (proj1 (parseAIResponse_ids response))].
  intros i Hi. now apply parsed_id_not_api_error.
Qed.
End ItemFacts.

(** X10: the items of a response are kept all or none.  When the array
    read from the response is [parsed], the result has one issue for each
    item that has a message, in order and with that message, provided
    each such item is convertible: its [severity] and its [category] are
    strings or falsy values, and its [file] and its [line] are falsy or
    can be converted to text.  A single item that is not (a [severity]
    that is a number, [true] or an object; a [file] that is an object
    with an own property [toString]) makes the result empty. *)
Theorem items_are_kept_all_or_none (JSON_parse : string -> Json + string)
    (text m : string) (parsed : list Json) :
  matchArray (cleanedOf text) = Some m ->
  JSON_parse m = inl (JArr parsed) ->
  let kept := List.filter hasMessage parsed in
  let result := parseAIResponse JSON_parse (JStr text) in
  (List.forallb convertible kept = true ->
   List.map message result
   = List.map (fun item => JsValue.optField (Some item) "message") kept
   /\ List.length result = List.length kept)
  /\ (List.forallb convertible kept = false -> result = []).
Proof.
  intros Hm Hp kept result. subst result.
  rewrite (parseAIResponse_array JSON_parse text Hm Hp). fold kept. split.
  - intro Hall. destruct (mapItems_ok kept 0 Hall) as [l [-> Hl]].
    split; [exact Hl |].
    rewrite <- (length_map message l), Hl. apply length_map.
  - intro Hbad. destruct (mapItems_fails kept 0 Hbad) as [e ->]. reflexivity.
Qed.

Lemma items_are_kept_all_or_none_witness :
  let q := JsString.quoted in
  let good := ("{" ++ q "message" ++ ":" ++ q "a" ++ "}")%string in
  let bad := ("{" ++ q "message" ++ ":" ++ q "b" ++ "," ++ q "severity" ++ ":5}")%string in
  let odd := ("{" ++ q "message" ++ ":" ++ q "m" ++ "," ++ q "file"
                  ++ ":{" ++ q "toString" ++ ":1}}")%string in
  parseAIResponse json_parse (JStr ("[" ++ good ++ "," ++ bad ++ "]")) = []
  /\ List.length (parseAIResponse json_parse (JStr ("[" ++ good ++ "]"))) = 1
  /\ parseAIResponse json_parse (JStr ("[" ++ good ++ "," ++ odd ++ "]")) = [].
Proof.
  cbv zeta. split; [| split].
  - exact (proj2 (@items_are_kept_all_or_none json_parse
             ("[" ++ ("{" ++ JsString.quoted "message" ++ ":" ++ JsString.quoted "a" ++ "}")
                  ++ ","
                  ++ ("{" ++ JsString.quoted "message" ++ ":" ++ JsString.quoted "b"
                          ++ "," ++ JsString.quoted "severity" ++ ":5}")
                  ++ "]")%string
             ("[" ++ ("{" ++ JsString.quoted "message" ++ ":" ++ JsString.quoted "a" ++ "}")
                  ++ ","
                  ++ ("{" ++ JsString.quoted "message" ++ ":" ++ JsString.quoted "b"
                          ++ "," ++ JsString.quoted "severity" ++ ":5}")
                  ++ "]")%string
             [JObj [("message"%string, JStr "a")];
              JObj [("message"%string, JStr "b"); ("severity"%string, JNum 5)]]
             eq_refl eq_refl) eq_refl).
  - exact (proj2 (proj1 (@items_are_kept_all_or_none json_parse
             ("[" ++ ("{" ++ JsString.quoted "message" ++ ":" ++ JsString.quoted "a" ++ "}")
                  ++ "]")%string
             ("[" ++ ("{" ++ JsString.quoted "message" ++ ":" ++ JsString.quoted "a" ++ "}")
                  ++ "]")%string
             [JObj [("message"%string, JStr "a")]]
             eq_refl eq_refl) eq_refl)).
  - exact (proj2 (@items_are_kept_all_or_none json_parse
             ("[" ++ ("{" ++ JsString.quoted "message" ++ ":" ++ JsString.quoted "a" ++ "}")
                  ++ ","
                  ++ ("{" ++ JsString.quoted "message" ++ ":" ++ JsString.quoted "m"
                          ++ "," ++ JsString.quoted "file"
                          ++ ":{" ++ JsString.quoted "toString" ++ ":1}}")
                  ++ "]")%string
             ("[" ++ ("{" ++ JsString.quoted "message" ++ ":" ++ JsString.quoted "a" ++ "}")
                  ++ ","
                  ++ ("{" ++ JsString.quoted "message" ++ ":" ++ JsString.quoted "m"
                          ++ "," ++ JsString.quoted "file"
                          ++ ":{" ++ JsString.quoted "toString" ++ ":1}}")
                  ++ "]")%string
             [JObj [("message"%string, JStr "a")];
              JObj [("message"%string, JStr "m");
                    ("file"%string, JObj [("toString"%string, JNum 1)])]]
             eq_refl eq_refl) eq_refl).
Defined.

(** X11: the issues read from one response have pairwise distinct ids. *)
Theorem parsed_ids_are_distinct (JSON_parse : string -> Json + string)
    (response : Json) :
  NoDup (List.map id (parseAIResponse JSON_parse response)).
Proof. exact (proj2 (parseAIResponse_ids JSON_parse response)). Qed.

(** X12: no issue read from a response has the id [ai-api-error]; so an
    issue with that id in the outcome of a review is the issue of a failed
    review: it is the only issue of the outcome, it has severity [error]
    and it is on the first reviewable file. *)
Theorem api_error_issue_stands_alone (JSON_parse : string -> Json + string)
    (n : Z) (title branch head : string) (fs : list PRFile)
    (cats rules : list string) (w : World) (i : ReviewIssue) :
  let r := fst (reviewPullRequest JSON_parse n title branch head fs cats rules w) in
  In i (issues r) ->
  id i = "ai-api-error"%string ->
  issues r = [i]
  /\ severity i = Severity.error
  /\ exists first others,
       List.filter reviewable fs = first :: others
       /\ file i = JStr (filename first).
Proof.
  cbv zeta. unfold reviewPullRequest.
  pose proof (reviewBatches_parsed JSON_parse cats rules
                (batchFiles (List.filter reviewable fs) 25000)
                {| allIssues := []; apiErrorOccurred := false;
                   lastApiError := EmptyString |} w (Forall_nil _)) as Hparsed.
  destruct (reviewBatches JSON_parse cats rules _ _ w) as [st w'].
  cbn [fst issues] in Hparsed |- *. rewrite Forall_forall in Hparsed.
  destruct (apiErrorOccurred st && Nat.eqb (List.length (allIssues st)) 0
            && Nat.ltb 0 (List.length (List.filter reviewable fs))) eqn:Hcond.
  - apply andb_true_iff in Hcond. destruct Hcond as [Hcond _].
    apply andb_true_iff in Hcond. destruct Hcond as [_ Hlen].
    apply Nat.eqb_eq in Hlen.
    destruct (allIssues st) as [| x l]; [| discriminate Hlen].
    destruct (List.filter reviewable fs) as [| first others] eqn:Hfs.
    + intros [].
    + cbn [app]. intros [<- | []] _. repeat split. eauto.
  - intros Hin Hid. elim (Hparsed i Hin Hid).
Qed.

Lemma api_error_issue_stands_alone_witness :
  let a := Sample.mkFile "a.ts" modified (Sample.patchOf 10) in
  let r := fst (reviewPullRequest json_parse 1 "title" "branch" "head"
                  [a] [] [] (Sample.scripted [])) in
  issues r = [apiErrorIssue "a.ts" "Groq API timeout (90s)"].
Proof.
  cbv zeta.
  refine (proj1 (@api_error_issue_stands_alone json_parse 1 "title" "branch" "head"
            [Sample.mkFile "a.ts" modified (Sample.patchOf 10)] [] []
            (Sample.scripted [])
            (apiErrorIssue "a.ts" "Groq API timeout (90s)") _ eq_refl)).
  vm_compute. left. reflexivity.
Defined.

(** X13: normalization ignores the case of letters and recognizes every
    name of the enumerations: a string whose lower-case form is the name
    of a severity (of a category) is normalized to that severity
    (category), and two strings with the same lower-case form are
    normalized alike.  (The names [constructor] and [__proto__] are
    normalized to the value the table inherits under that name.) *)
Theorem normalizers_ignore_case :
  (forall v s, JsString.toLowerCase s = severityName v ->
               normalizeSeverity (Some (JStr s)) = Returned v)
  /\ (forall c s, JsString.toLowerCase s = categoryName c ->
                  normalizeCategory (Some (JStr s)) = Returned c)
  /\ (forall s t, JsString.toLowerCase s = JsString.toLowerCase t ->
                  normalizeSeverity (Some (JStr s)) = normalizeSeverity (Some (JStr t))
                  /\ normalizeCategory (Some (JStr s))
                     = normalizeCategory (Some (JStr t))).
Proof.
  assert (Hlow : forall s, lowered (Some (JStr s)) = Returned (JsString.toLowerCase s)).
  { intros [| c s]; reflexivity. }
  split; [| split].
  - intros v s H. unfold normalizeSeverity. rewrite Hlow, H. now destruct v.
  - intros c s H. unfold normalizeCategory. rewrite Hlow, H. now destruct c.
  - intros s t H. unfold normalizeSeverity, normalizeCategory.
    rewrite !Hlow, H. split; reflexivity.
Qed.

Lemma normalizers_ignore_case_witness :
  normalizeSeverity (Some (JStr "WARNING")) = Returned Severity.warning
  /\ normalizeCategory (Some (JStr "Merge-Conflict"))
     = Returned ReviewCategory.merge_conflict.
Proof.
  split.
  - exact (proj1 normalizers_ignore_case Severity.warning "WARNING"%string eq_refl).
  - exact (proj1 (proj2 normalizers_ignore_case)
             ReviewCategory.merge_conflict "Merge-Conflict"%string eq_refl).
Defined.

(* ================================================================== *)
(** * Further properties of the webhook gateway *)
(* ================================================================== *)

Section GatewayInversion.
Variable JSON_parse : string -> Json + string.
Variable hmac_sha256_hex : string -> string -> string.
Variable secret : string.
Variable now : string.

Local Open Scope string_scope.

Lemma utf8_decode_char (c : ascii) (rest : list ascii) :
  utf8_decode (utf8 c ++ rest) = String c (utf8_decode rest).
Proof. destruct c as [[] [] [] [] [] [] [] []]; reflexivity. Qed.

Lemma utf8_decode_encode (s : string) : utf8_decode (Buffer_from s) = s.
Proof.
  induction s as [| c s IH]; [reflexivity |].
  cbn [Buffer_from]. now rewrite utf8_decode_char, IH.
Qed.

Lemma Buffer_from_inj (s t : string) : Buffer_from s = Buffer_from t -> s = t.
Proof.
  intro H. apply (f_equal utf8_decode) in H. now rewrite !utf8_decode_encode in H.
Qed.

Lemma respond_fired (code : nat) (props : list (string * option Json)) :
  fired (respond code props) = [].
Proof. reflexivity. Qed.

(** What it takes for [dispatch] to fire. *)
Lemma dispatch_fired (payload : Json) :
  fired (dispatch payload) <> [] ->
  exists action,
    JsValue.getField (Some payload) "action" = Some action
    /\ isRelevant action = true
    /\ fired (dispatch payload) = [payload]
    /\ response (dispatch payload)
       = Some (200, JObj (objectOf
                            [("message", Some (JStr "Review triggered"));
                             ("pr", JsValue.optField (Some payload) "number");
                             ("action", action)])).
Proof.
  unfold dispatch.
  destruct (JsValue.getField (Some payload) "action") as [action |];
    [| intro H; now elim H].
  destruct (isRelevant action) eqn:Hrel; cbn [negb];
    [| destruct (JsValue.toString action); intro H; now elim H].
  intros _. exists action. cbv zeta.
  match goal with
  | |- context [match ?notice with
                | Some _ => _
                | None => headersSent _ _
                end] => destruct notice
  end; cbn [fired response headersSent]; auto.
Qed.

(** What it takes for the listener of [end] to fire. *)
Lemma onEnd_fired (req : IncomingMessage) :
  fired (onEnd JSON_parse hmac_sha256_hex secret req) <> [] ->
  (secret = ""
   \/ verifySignature hmac_sha256_hex secret (body req) (x_hub_signature_256 req)
      = Returned true)
  /\ x_github_event req = Some "pull_request"
  /\ exists payload,
       JSON_parse (body req) = inl payload
       /\ onEnd JSON_parse hmac_sha256_hex secret req = dispatch payload.
Proof.
  unfold onEnd.
  set (verified := if negb (String.eqb secret "") then _ else _).
  assert (Hv : verified = Returned true ->
               secret = ""
               \/ verifySignature hmac_sha256_hex secret (body req)
                    (x_hub_signature_256 req) = Returned true).
  { subst verified. destruct (String.eqb_spec secret ""); cbn [negb]; auto. }
  destruct verified as [[|] | e]; try (intro H; now elim H).
  destruct (x_github_event req) as [ev |]; [| intro H; now elim H].
  destruct (String.eqb_spec ev "pull_request") as [-> | Hne];
    cbn [negb]; [| intro H; now elim H].
  destruct (JSON_parse (body req)) as [payload | e]; [| intro H; now elim H].
  intros _. split; [now apply Hv |]. split; [reflexivity |]. eauto.
Qed.

Lemma handleRequest_fired (req : IncomingMessage) :
  fired (handleRequest JSON_parse hmac_sha256_hex secret now req) <> [] ->
  method req = "POST"
  /\ (url req = "/webhook" \/ url req = "/")
  /\ handleRequest JSON_parse hmac_sha256_hex secret now req
     = onEnd JSON_parse hmac_sha256_hex secret req.
Proof.
  unfold handleRequest.
  destruct (String.eqb_spec (method req) "POST") as [Hm | Hm];
    cbn [negb]; [| intro H; now elim H].
  destruct (String.eqb (url req) "/health"); [intro H; now elim H |].
  destruct (String.eqb_spec (url req) "/webhook") as [Hu | Hu]; cbn [negb andb].
  - auto.
  - destruct (String.eqb_spec (url req) "/") as [Hr | Hr]; cbn [negb].
    + auto.
    + intro H. now elim H.
Qed.

(** An action that cannot be converted to text is no relevant action. *)
Lemma toString_none_not_relevant (action : option Json) :
  JsValue.toString action = None -> isRelevant action = false.
Proof.
  destruct action as [[| b | z | t | l | fields] |]; try reflexivity.
  discriminate.
Qed.

(** [dispatch] leaves the request without response only when the action
    cannot be converted to text. *)
Lemma dispatch_unanswered (payload : Json) :
  response (dispatch payload) = None
  <-> exists action,
        JsValue.getField (Some payload) "action" = Some (Some action)
        /\ JsValue.toStr action = None.
Proof.
  unfold dispatch.
  destruct (JsValue.getField (Some payload) "action") as [action |].
  2:{ split; [discriminate | intros [a [H _]]; discriminate H]. }
  destruct (isRelevant action) eqn:Hrel; cbn [negb].
  - split.
    + cbv zeta.
      match goal with
      | |- context [match ?notice with
                    | Some _ => _
                    | None => headersSent _ _
                    end] => destruct notice
      end; discriminate.
    + intros [a [[= ->] Hthrows]].
      rewrite (toString_none_not_relevant (Some a) Hthrows) in Hrel.
      discriminate Hrel.
  - destruct (JsValue.toString action) as [text |] eqn:Etext.
    + split; [discriminate |].
      intros [a [[= ->] Hthrows]]. cbn [JsValue.toString] in Etext.
      rewrite Hthrows in Etext. discriminate Etext.
    + split; [| reflexivity]. intros _.
      destruct action as [a |]; [| discriminate Etext]. exists a. auto.
Qed.

Lemma verifySignature_throws_iff (payload : string) (signature : option string) :
  (exists e, verifySignature hmac_sha256_hex secret payload signature = Thrown e)
  <-> exists sig,
        signature = Some sig
        /\ sig <> ""
        /\ List.length (Buffer_from sig)
           <> List.length (Buffer_from ("sha256=" ++ hmac_sha256_hex secret payload)).
Proof.
  unfold verifySignature, timingSafeEqual. split.
  - intros [e H]. destruct signature as [sig |]; [| discriminate].
    exists sig. destruct (String.eqb_spec sig ""); [discriminate |].
    destruct (Nat.eqb_spec (List.length (Buffer_from sig))
                (List.length (Buffer_from ("sha256=" ++ hmac_sha256_hex secret payload))));
      [discriminate | auto].
  - intros [sig [-> [Hne Hlen]]].
    destruct (String.eqb_spec sig ""); [contradiction |].
    destruct (Nat.eqb_spec (List.length (Buffer_from sig))
                (List.length (Buffer_from ("sha256=" ++ hmac_sha256_hex secret payload))));
      [contradiction | cbn [negb]; eauto].
Qed.

(** The signature check passes exactly for the header [sha256=] followed
    by the digest. *)
Lemma verifySignature_true_iff (payload : string) (signature : option string) :
  verifySignature hmac_sha256_hex secret payload signature = Returned true
  <-> signature = Some ("sha256=" ++ hmac_sha256_hex secret payload).
Proof.
  split.
  - intro H.
    destruct (verifySignature_true hmac_sha256_hex secret payload signature H)
      as [sig [-> Hbytes]].
    f_equal. now apply Buffer_from_inj.
  - intros ->. apply verifySignature_signed.
Qed.

Lemma onEnd_unanswered (req : IncomingMessage) :
  response (onEnd JSON_parse hmac_sha256_hex secret req) = None
  <-> (secret <> ""
       /\ exists e,
            verifySignature hmac_sha256_hex secret (body req) (x_hub_signature_256 req)
            = Thrown e)
      \/ ((secret = ""
           \/ x_hub_signature_256 req
              = Some ("sha256=" ++ hmac_sha256_hex secret (body req)))
          /\ x_github_event req = Some "pull_request"
          /\ exists payload action,
               JSON_parse (body req) = inl payload
               /\ JsValue.getField (Some payload) "action" = Some (Some action)
               /\ JsValue.toStr action = None).
Proof.
  rewrite <- (verifySignature_true_iff (body req) (x_hub_signature_256 req)).
  assert (Hpast :
            response
              (if negb match x_github_event req with
                       | Some e => String.eqb e "pull_request"
                       | None => false
                       end
               then
                 respond 200
                   [("message",
                     Some (JStr ("Event '"
                                 ++ match x_github_event req with
                                    | Some e => e
                                    | None => "undefined"
                                    end
                                 ++ "' ignored")))]
               else
                 match JSON_parse (body req) with
                 | inr _ => respond 400 [("error", Some (JStr "Invalid JSON payload"))]
                 | inl payload => dispatch payload
                 end) = None
            <-> x_github_event req = Some "pull_request"
                /\ exists payload action,
                     JSON_parse (body req) = inl payload
                     /\ JsValue.getField (Some payload) "action" = Some (Some action)
                     /\ JsValue.toStr action = None).
  { destruct (x_github_event req) as [ev |].
    2:{ split; [discriminate | intros [H _]; discriminate H]. }
    destruct (String.eqb_spec ev "pull_request") as [-> | Hne]; cbn [negb].
    2:{ split; [discriminate | intros [[= H] _]; contradiction]. }
    destruct (JSON_parse (body req)) as [payload | e].
    - rewrite dispatch_unanswered. split.
      + intros [action [Hact Hthrows]]. split; [reflexivity |]. eauto.
      + intros [_ [payload' [action [[= <-] [Hact Hthrows]]]]]. eauto.
    - split; [discriminate |].
      intros [_ [payload [action [H _]]]]. discriminate H. }
  unfold onEnd. destruct (String.eqb_spec secret "") as [Hs | Hs]; cbn [negb].
  - rewrite Hpast. split.
    + intro H. right. split; [now left | exact H].
    + intros [[H _] | [_ H]]; [contradiction | exact H].
  - destruct (verifySignature hmac_sha256_hex secret (body req)
                (x_hub_signature_256 req)) as [[|] | e].
    + rewrite Hpast. split.
      * intro H. right. split; [now right | exact H].
      * intros [[_ [e H]] | [_ H]]; [discriminate H | exact H].
    + split; [discriminate |].
      intros [[_ [e H]] | [[H | H] _]];
        [discriminate H | contradiction | discriminate H].
    + split; [intros _; left; eauto |]. reflexivity.
Qed.
End GatewayInversion.

(** X14: the gateway fires an event only for a POST request on the
    webhook path (or the root) with the event type [pull_request], a body
    that parses and an action among the relevant ones; it then fires
    exactly that payload, once, and answers 200.  When a secret is set, it
    fires only if the signature header is exactly [sha256=] followed by
    the digest of the body under the secret. *)
Theorem event_only_when_verified (JSON_parse : string -> Json + string)
    (hmac_sha256_hex : string -> string -> string) (secret now : string)
    (req : IncomingMessage) :
  let h := handleRequest JSON_parse hmac_sha256_hex secret now req in
  fired h <> [] ->
  method req = "POST"%string
  /\ (url req = "/webhook"%string \/ url req = "/"%string)
  /\ x_github_event req = Some "pull_request"%string
  /\ (secret <> EmptyString ->
      x_hub_signature_256 req
      = Some ("sha256=" ++ hmac_sha256_hex secret (body req))%string)
  /\ exists payload action,
       JSON_parse (body req) = inl payload
       /\ JsValue.getField (Some payload) "action" = Some action
       /\ isRelevant action = true
       /\ fired h = [payload]
       /\ exists answer, response h = Some (200, answer).
Proof.
  intros h Hfired. subst h.
  destruct (handleRequest_fired JSON_parse hmac_sha256_hex secret now req Hfired)
    as [Hm [Hu E]].
  rewrite E in Hfired |- *.
  destruct (onEnd_fired JSON_parse hmac_sha256_hex secret req Hfired)
    as [Hsig [Hev [payload [Hparse E']]]].
  rewrite E' in Hfired |- *.
  destruct (dispatch_fired payload Hfired) as [action [Hact [Hrel [Hf Hr]]]].
  split; [exact Hm |]. split; [exact Hu |]. split; [exact Hev |]. split.
  - intro Hsecret. destruct Hsig as [Hs | Hs]; [contradiction |].
    destruct (verifySignature_true hmac_sha256_hex secret (body req)
                (x_hub_signature_256 req) Hs) as [sig [-> Hbytes]].
    f_equal. now apply Buffer_from_inj.
  - exists payload, action. repeat split; try assumption. eauto.
Qed.

Lemma event_only_when_verified_witness :
  let req := Sample.post (Some ("sha256=" ++ Sample.noHmac "k" "b")%string)
               "pull_request" (Sample.prEvent "opened") in
  x_hub_signature_256 req
  = Some ("sha256=" ++ Sample.noHmac "k" (body req))%string
  /\ method req = "POST"%string.
Proof.
  cbv zeta.
  assert (Hfired : fired (handleRequest json_parse Sample.noHmac "k" "now"
                            (Sample.post (Some ("sha256=" ++ Sample.noHmac "k" "b")%string)
                               "pull_request" (Sample.prEvent "opened"))) <> []).
  { vm_compute. discriminate. }
  destruct (@event_only_when_verified json_parse Sample.noHmac "k" "now" _ Hfired)
    as [Hm [_ [_ [Hsig _]]]].
  split; [| exact Hm]. apply Hsig. discriminate.
Defined.

(** X15: the gateway leaves a request without response in two cases
    only, both for a POST on the webhook path (or the root).  Either a
    secret is set and the signature header is non-empty with a length in
    bytes that is not that of [sha256=] followed by the digest (the
    comparison throws).  Or the request passes the signature check (no
    secret, or the header of the digest), has the event type
    [pull_request] and a body that parses to a payload whose action is
    not converted to text: an object with an own property [toString], or
    an array that holds one (the head of the response is written, the
    acknowledgment throws, and so does the [catch]). *)
Theorem unanswered_requests (JSON_parse : string -> Json + string)
    (hmac_sha256_hex : string -> string -> string) (secret now : string)
    (req : IncomingMessage) :
  response (handleRequest JSON_parse hmac_sha256_hex secret now req) = None
  <-> method req = "POST"%string
      /\ (url req = "/webhook"%string \/ url req = "/"%string)
      /\ ((secret <> EmptyString
           /\ exists sig,
                x_hub_signature_256 req = Some sig
                /\ sig <> EmptyString
                /\ List.length (Buffer_from sig)
                   <> List.length
                        (Buffer_from
                           ("sha256=" ++ hmac_sha256_hex secret (body req))%string))
          \/ ((secret = EmptyString
               \/ x_hub_signature_256 req
                  = Some ("sha256=" ++ hmac_sha256_hex secret (body req))%string)
              /\ x_github_event req = Some "pull_request"%string
              /\ exists payload action,
                   JSON_parse (body req) = inl payload
                   /\ JsValue.getField (Some payload) "action" = Some (Some action)
                   /\ JsValue.toStr action = None)).
Proof.
  rewrite <- (verifySignature_throws_iff hmac_sha256_hex secret (body req)
               (x_hub_signature_256 req)).
  unfold handleRequest.
  destruct (String.eqb_spec (method req) "POST") as [Hm | Hm]; cbn [negb].
  2: { split; [discriminate | intros [H _]; contradiction]. }
  destruct (String.eqb_spec (url req) "/health") as [Hh | Hh].
  { split; [discriminate |].
    intros [_ [[Hu | Hu] _]]; rewrite Hu in Hh; discriminate Hh. }
  destruct (String.eqb_spec (url req) "/webhook") as [Hu | Hu]; cbn [negb andb].
  - rewrite onEnd_unanswered. tauto.
  - destruct (String.eqb_spec (url req) "/") as [Hr | Hr]; cbn [negb].
    + rewrite onEnd_unanswered. tauto.
    + split; [discriminate | intros [_ [[H | H] _]]; contradiction].
Qed.

(** The second case on a request: the head of the response is written,
    the acknowledgment is not, and the error of the [catch] escapes. *)
Example unconvertible_action_unanswered :
  let h := handleRequest json_parse Sample.noHmac "" "now"
             (Sample.post None "pull_request" oddActionEvent) in
  response h = None
  /\ fired h = []
  /\ uncaught h
     = Some "Error [ERR_HTTP_HEADERS_SENT]: Cannot write headers after they are sent to the client"%string.
Proof. vm_compute. repeat split. Qed.

(** X16: whenever the gateway writes a response, its status is one of
    200, 400, 401, 404 and 405. *)
Theorem response_status_codes (JSON_parse : string -> Json + string)
    (hmac_sha256_hex : string -> string -> string) (secret now : string)
    (req : IncomingMessage) (code : nat) (answer : Json) :
  response (handleRequest JSON_parse hmac_sha256_hex secret now req)
  = Some (code, answer) ->
  In code [200; 400; 401; 404; 405].
Proof.
  assert (Hdispatch : forall payload,
             response (dispatch payload) = Some (code, answer) ->
             In code [200; 400; 401; 404; 405]).
  { intro payload. unfold dispatch.
    destruct (JsValue.getField (Some payload) "action") as [action |].
    - destruct (negb (isRelevant action)).
      + destruct (JsValue.toString action); cbn [response respond headersSent];
          [intros [= <- _]; cbn; auto | discriminate].
      + cbv zeta.
        match goal with
        | |- context [match ?notice with
                      | Some _ => _
                      | None => headersSent _ _
                      end] => destruct notice
        end; cbn [response headersSent]; intros [= <- _]; cbn; auto.
    - cbn [response respond]. intros [= <- _]. cbn. auto. }
  unfold handleRequest.
  destruct (negb (String.eqb (method req) "POST"));
    [cbn [response respond]; intros [= <- _]; cbn; auto 7 |].
  destruct (String.eqb (url req) "/health");
    [cbn [response respond]; intros [= <- _]; cbn; auto |].
  destruct (negb (String.eqb (url req) "/webhook") && negb (String.eqb (url req) "/"));
    [cbn [response respond]; intros [= <- _]; cbn; auto 7 |].
  unfold onEnd.
  destruct (if negb (String.eqb secret "") then _ else _) as [[|] | e];
    [| cbn [response respond]; intros [= <- _]; cbn; auto | discriminate].
  destruct (negb _); [cbn [response respond]; intros [= <- _]; cbn; auto |].
  destruct (JSON_parse (body req)) as [payload | e];
    [apply Hdispatch | cbn [response respond]; intros [= <- _]; cbn; auto].
Qed.

Lemma response_status_codes_witness :
  In 401 [200; 400; 401; 404; 405].
Proof.
  exact (@response_status_codes json_parse Sample.noHmac "k" "now"
           (Sample.post None "pull_request" "{}") 401
           (JObj [("error"%string, JStr "Invalid signature")]) eq_refl).
Defined.

(* ================================================================== *)
(** * The life cycle of the gateway *)
(* ================================================================== *)

(** X17: a start that fails (the port is taken, say) leaves the gateway
    holding its server: it reports itself running, and every further
    start is refused with "already running", without listening again,
    until [stop] is called; after [stop] a start can succeed. *)
Theorem failed_start_blocks_restart (g : Gateway) (code msg : string)
    (again : ListenOutcome) :
  isRunning g = false ->
  let g1 := snd (start (ListenFailed code msg) g) in
  fst (start (ListenFailed code msg) g) = Thrown msg
  /\ isRunning g1 = true
  /\ statusChanges g1 = statusChanges g
  /\ start again g1 = (Thrown "Webhook server is already running.", g1)
  /\ isRunning (stop g1) = false
  /\ fst (start Listening (stop g1)) = Returned tt.
Proof.
  unfold isRunning, start, stop. intro H. rewrite H. cbn. repeat split.
Qed.

Lemma failed_start_blocks_restart_witness :
  let g := {| server := false; port := 7890; statusChanges := []; notices := [] |} in
  let g1 := snd (start (ListenFailed "EADDRINUSE" "listen EADDRINUSE") g) in
  isRunning g1 = true
  /\ start Listening g1 = (Thrown "Webhook server is already running.", g1).
Proof.
  cbv zeta.
  destruct (@failed_start_blocks_restart
              {| server := false; port := 7890; statusChanges := []; notices := [] |}
              "EADDRINUSE" "listen EADDRINUSE" Listening eq_refl)
    as [_ [Hrun [_ [Hagain _]]]].
  split; assumption.
Defined.

(** X18: [stop] is idempotent and always leaves the gateway stopped; a
    start that succeeds followed by [stop] fires the status [true] and
    then [false], and a second [stop] fires nothing more. *)
Theorem stop_is_idempotent (g : Gateway) :
  stop (stop g) = stop g
  /\ isRunning (stop g) = false
  /\ (isRunning g = false ->
      let g1 := snd (start Listening g) in
      isRunning g1 = true
      /\ statusChanges (stop g1) = statusChanges g ++ [true; false]
      /\ statusChanges (stop (stop g1)) = statusChanges g ++ [true; false]).
Proof.
  unfold isRunning, stop, start. destruct (server g) eqn:Hs; cbn.
  - split; [reflexivity | split; [reflexivity | discriminate]].
  - rewrite Hs. split; [reflexivity | split; [reflexivity |]].
    intros _. split; [reflexivity |]. split; now rewrite <- app_assoc.
Qed.

Lemma stop_is_idempotent_witness :
  let g := {| server := false; port := 7890; statusChanges := []; notices := [] |} in
  statusChanges (stop (stop (snd (start Listening g)))) = [true; false].
Proof.
  cbv zeta.
  exact (proj2 (proj2 (proj2 (proj2 (stop_is_idempotent
           {| server := false; port := 7890; statusChanges := []; notices := [] |}))
           eq_refl))).
Defined.

(* ================================================================== *)
(** * The files of a pull request *)
(* ================================================================== *)

Section PaginationFacts.
Variable listFiles : nat -> Outcome (list PRFile).

Lemma div_100_step (n : nat) : 100 <= n -> n / 100 = S ((n - 100) / 100).
Proof.
  intro H. replace n with (1 * 100 + (n - 100)) at 1 by lia.
  rewrite Nat.div_add_l by discriminate. lia.
Qed.

Lemma filesLoop_pages (turns : nat) :
  forall rest acc page,
    (forall q, listFiles (page + q)
               = Returned (List.firstn 100 (List.skipn (100 * q) rest))) ->
    List.length rest / 100 < turns ->
    filesLoop listFiles turns page acc
    = Some (Returned (acc ++ rest), page + List.length rest / 100).
Proof.
  induction turns as [| turns IH]; intros rest acc page Hserve Hturns; [lia |].
  cbn [filesLoop]. pose proof (Hserve 0) as H0.
  rewrite Nat.add_0_r, Nat.mul_0_r in H0. cbn [List.skipn] in H0. rewrite H0.
  destruct (Nat.eqb_spec (List.length (List.firstn 100 rest)) 0) as [Hz | Hz].
  - rewrite length_firstn in Hz.
    assert (Hrest : rest = []) by (destruct rest; [reflexivity | cbn in Hz; lia]).
    subst rest. rewrite app_nil_r. cbn [List.length].
    rewrite Nat.Div0.div_0_l. now rewrite Nat.add_0_r.
  - destruct (Nat.ltb_spec (List.length (List.firstn 100 rest)) 100) as [Hshort | Hfull].
    + rewrite length_firstn in Hshort.
      assert (Hlen : List.length rest < 100) by lia.
      rewrite firstn_all2 by lia.
      rewrite Nat.div_small by exact Hlen. now rewrite Nat.add_0_r.
    + rewrite length_firstn in Hfull.
      assert (Hlen : 100 <= List.length rest) by lia.
      rewrite (IH (List.skipn 100 rest)).
      * rewrite <- app_assoc, firstn_skipn. rewrite length_skipn.
        rewrite (div_100_step Hlen). do 2 f_equal. lia.
      * intro q. replace (page + 1 + q) with (page + S q) by lia.
        rewrite Hserve, skipn_skipn. do 3 f_equal. lia.
      * rewrite length_skipn. rewrite (div_100_step Hlen) in Hturns. lia.
Qed.

(** A rejection after [d] full pages ends the loop with that error. *)
Lemma filesLoop_rejected (e : string) (d : nat) :
  forall turns page files,
    (forall j, page <= j < page + d ->
               exists data, listFiles j = Returned data /\ 100 <= List.length data) ->
    listFiles (page + d) = Thrown e ->
    d < turns ->
    filesLoop listFiles turns page files = Some (Thrown e, page + d).
Proof.
  induction d as [| d IH]; intros turns page files Hfull Hrej Hturns;
    (destruct turns as [| turns]; [lia |]); cbn [filesLoop].
  - rewrite Nat.add_0_r in Hrej |- *. now rewrite Hrej.
  - destruct (Hfull page ltac:(lia)) as [data [-> Hlen]].
    destruct (Nat.eqb_spec (List.length data) 0) as [H0 | _]; [lia |].
    destruct (Nat.ltb_spec (List.length data) 100) as [Hlt | _]; [lia |].
    cbv zeta. rewrite (IH turns (page + 1) (files ++ data)%list).
    + do 2 f_equal. lia.
    + intros j Hj. apply Hfull. lia.
    + replace (page + 1 + d) with (page + S d) by lia. exact Hrej.
    + lia.
Qed.
End PaginationFacts.

(** X19: from a server that holds [all] the files of the pull request and
    serves them in pages of 100, [getPullRequestFiles] returns exactly
    [all], in order, and asks for [length all / 100 + 1] pages: one page
    more than the full ones, so a list of 200 files costs three
    requests, the last one answered with an empty page. *)
Theorem paged_files_are_all_fetched (all : list PRFile) (turns : nat) :
  List.length all / 100 < turns ->
  getPullRequestFiles (pagedServer all) turns
  = Some (Returned all, List.length all / 100 + 1).
Proof.
  intro H. unfold getPullRequestFiles.
  rewrite (@filesLoop_pages (pagedServer all) turns all [] 1).
  - cbn [app]. do 2 f_equal. lia.
  - intro q. unfold pagedServer. do 3 f_equal. lia.
  - exact H.
Qed.

Lemma paged_files_are_all_fetched_witness :
  let a := Sample.mkFile "a.ts" modified None in
  getPullRequestFiles (pagedServer [a; a; a]) 1 = Some (Returned [a; a; a], 1).
Proof.
  cbv zeta.
  refine (@paged_files_are_all_fetched
            [Sample.mkFile "a.ts" modified None; Sample.mkFile "a.ts" modified None;
             Sample.mkFile "a.ts" modified None] 1 _).
  vm_compute. constructor.
Defined.

(** X20: a rejected page request ends [getPullRequestFiles] with that
    error, whichever page it is: when the pages before page [k] are full
    (100 files or more) and the request for page [k] is rejected, the
    result is that rejection, after [k] requests; the files of the pages
    read before it are not returned. *)
Theorem rejected_page_loses_files (listFiles : nat -> Outcome (list PRFile))
    (turns k : nat) (e : string) :
  1 <= k <= turns ->
  (forall j, 1 <= j < k ->
             exists data, listFiles j = Returned data /\ 100 <= List.length data) ->
  listFiles k = Thrown e ->
  getPullRequestFiles listFiles turns = Some (Thrown e, k).
Proof.
  intros Hk Hfull Hrej. unfold getPullRequestFiles.
  rewrite (@filesLoop_rejected listFiles e (k - 1) turns 1 []).
  - do 2 f_equal. lia.
  - intros j Hj. apply Hfull. lia.
  - replace (1 + (k - 1)) with k by lia. exact Hrej.
  - lia.
Qed.

Lemma rejected_page_loses_files_witness :
  let page := List.repeat (Sample.mkFile "a.ts" modified None) 100 in
  let listFiles :=
    fun p => if Nat.leb p 2 then Returned page else Thrown "rate limit"%string in
  getPullRequestFiles listFiles 5 = Some (Thrown "rate limit"%string, 3).
Proof.
  cbv zeta.
  refine (@rejected_page_loses_files _ 5 3 "rate limit"%string _ _ eq_refl).
  - lia.
  - intros j Hj. exists (List.repeat (Sample.mkFile "a.ts" modified None) 100).
    split.
    + destruct j as [| [| [| j]]]; [lia | reflexivity | reflexivity | lia].
    + rewrite repeat_length. lia.
Defined.

(* ================================================================== *)
(** * Presenters *)
(* ================================================================== *)

Section PresenterFacts.
Local Open Scope string_scope.

Lemma escapeHtml_cons (c : ascii) (s : string) :
  escapeHtml (String c s) = escapeChar c ++ escapeHtml s.
Proof. destruct c as [[] [] [] [] [] [] [] []]; reflexivity. Qed.

Lemma escapeChar_safe (c : ascii) :
  Spec.absent "<" (escapeChar c) = true
  /\ Spec.absent ">" (escapeChar c) = true
  /\ Spec.absent (ascii_of_nat 34) (escapeChar c) = true
  /\ Spec.absent "'" (escapeChar c) = true.
Proof. destruct c as [[] [] [] [] [] [] [] []]; repeat split. Qed.

Lemma absent_app (c : ascii) (a b : string) :
  Spec.absent c (a ++ b) = Spec.absent c a && Spec.absent c b.
Proof.
  induction a as [| x a IH]; [reflexivity |].
  cbn [append Spec.absent]. rewrite IH. now rewrite andb_assoc.
Qed.

Lemma unescape_char (c : ascii) (rest : string) :
  unescapeHtml (escapeChar c ++ rest) = String c (unescapeHtml rest).
Proof. destruct c as [[] [] [] [] [] [] [] []]; reflexivity. Qed.

Lemma firstn_app_firstn (A : Type) (n : nat) (a b : list A) :
  List.firstn n (a ++ List.firstn n b) = List.firstn n (a ++ b).
Proof.
  rewrite !firstn_app, firstn_firstn. do 2 f_equal. lia.
Qed.

Lemma addEvent_firstn (time event : string) (eventLog : list string) :
  addEvent time event eventLog
  = List.firstn 20 (logEntry time event :: eventLog).
Proof.
  unfold addEvent.
  destruct (Nat.ltb_spec 20 (List.length (logEntry time event :: eventLog)));
    [reflexivity |].
  symmetry. now apply firstn_all2.
Qed.

Lemma addEvents_firstn (events : list (string * string)) :
  forall eventLog,
    addEvents events (List.firstn 20 eventLog)
    = List.firstn 20
        (List.app (List.rev (List.map (fun e => logEntry (fst e) (snd e)) events))
                  eventLog).
Proof.
  induction events as [| e events IH]; intro eventLog.
  - reflexivity.
  - cbn [addEvents List.fold_left List.map List.rev].
    fold (addEvents events (addEvent (fst e) (snd e) (List.firstn 20 eventLog))).
    rewrite addEvent_firstn.
    change (logEntry (fst e) (snd e) :: List.firstn 20 eventLog)
      with (List.app [logEntry (fst e) (snd e)] (List.firstn 20 eventLog)).
    rewrite firstn_app_firstn, IH, <- app_assoc. reflexivity.
Qed.
End PresenterFacts.

(** X21: the event log of the webhook view never holds more than twenty
    entries: after any series of events on an empty log it holds the
    twenty most recent ones, newest first, each with its time. *)
Theorem event_log_keeps_last_twenty (events : list (string * string)) :
  let entry := fun e : string * string => logEntry (fst e) (snd e) in
  addEvents events [] = List.firstn 20 (List.rev (List.map entry events))
  /\ List.length (addEvents events []) = Nat.min 20 (List.length events).
Proof.
  cbv zeta.
  pose proof (addEvents_firstn events []) as H.
  change (List.firstn 20 (@nil string)) with (@nil string) in H.
  rewrite app_nil_r in H. split; [exact H |].
  rewrite H, length_firstn, length_rev, length_map. reflexivity.
Qed.

(** X22: [escapeHtml] writes no angle bracket and no quote, it works
    character by character (so it distributes over concatenation), and
    the text can be read back from its result: two texts with the same
    escaped form are the same. *)
Theorem escaped_text_is_inert (text more : string) :
  Spec.absent "<" (escapeHtml text) = true
  /\ Spec.absent ">" (escapeHtml text) = true
  /\ Spec.absent (ascii_of_nat 34) (escapeHtml text) = true
  /\ Spec.absent "'" (escapeHtml text) = true
  /\ escapeHtml (text ++ more) = (escapeHtml text ++ escapeHtml more)%string
  /\ unescapeHtml (escapeHtml text) = text.
Proof.
  induction text as [| c text IH].
  - repeat split.
  - destruct IH as [H1 [H2 [H3 [H4 [H5 H6]]]]].
    destruct (escapeChar_safe c) as [C1 [C2 [C3 C4]]].
    change (String c text ++ more)%string with (String c (text ++ more)%string).
    rewrite !escapeHtml_cons, !absent_app, H1, H2, H3, H4, C1, C2, C3, C4, H5.
    rewrite unescape_char, H6, string_app_assoc. repeat split.
Qed.

(** X23: [verifyApiKey] posts exactly one request and never waits,
    whatever the answer; it reports the key as valid only if that request
    got a response with status 200, so a rate-limited or failed check
    reports the key as invalid. *)
Theorem key_check_is_one_request (JSON_parse : string -> Json + string)
    (w : World) :
  let run := verifyApiKey JSON_parse w in
  requests (snd run) = requests w ++ [verifyPrompt]
  /\ sleeps (snd run) = sleeps w
  /\ (fst run = true ->
      exists data,
        net w (List.length (requests w)) verifyPrompt = HttpResponse 200 data)
  /\ (notOk (net w (List.length (requests w)) verifyPrompt) -> fst run = false).
Proof.
  cbv zeta. unfold verifyApiKey.
  pose proof (callGroq_world JSON_parse verifyPrompt w) as Hw.
  assert (Hok : forall t w1,
             callGroq JSON_parse verifyPrompt w = (Returned t, w1) ->
             exists data,
               net w (List.length (requests w)) verifyPrompt = HttpResponse 200 data).
  { unfold callGroq. intros t w1.
    destruct (net w (List.length (requests w)) verifyPrompt) as [code data | msg |];
      [| discriminate | discriminate].
    intro Hr. injection Hr as Hr _.
    destruct (@readResponse_returned JSON_parse code data t Hr) as [Hcode _].
    subst code. eauto. }
  assert (Hbad : notOk (net w (List.length (requests w)) verifyPrompt) ->
                 exists e, fst (callGroq JSON_parse verifyPrompt w) = Thrown e).
  { intro H. destruct (callGroq_notOk JSON_parse verifyPrompt w H) as [e ->].
    exists e. reflexivity. }
  destruct (callGroq JSON_parse verifyPrompt w) as [[t | e] w1] eqn:Hcall;
    cbn [snd] in Hw; subst w1.
  - assert (Hnot : notOk (net w (List.length (requests w)) verifyPrompt) -> False).
    { intro H. destruct (Hbad H) as [e' He']. discriminate He'. }
    destruct (includesOk t) as [b | e]; cbn [fst snd recordRequest requests sleeps].
    + split; [reflexivity |]. split; [reflexivity |].
      split; [intros _; exact (Hok t _ eq_refl) | intro H; elim (Hnot H)].
    + split; [reflexivity |]. split; [reflexivity |].
      split; [discriminate | reflexivity].
  - cbn [fst snd recordRequest requests sleeps].
    split; [reflexivity |]. split; [reflexivity |].
    split; [discriminate | reflexivity].
Qed.

Lemma key_check_is_one_request_witness :
  let w := Sample.scripted [HttpResponse 429 "slow down"] in
  fst (verifyApiKey json_parse w) = false.
Proof.
  cbv zeta.
  apply (proj2 (proj2 (proj2 (key_check_is_one_request json_parse
           (Sample.scripted [HttpResponse 429 "slow down"]))))).
  cbn. intro E. vm_compute in E. discriminate E.
Defined.

(* ================================================================== *)
(** * Pull-request numbers typed by the user *)
(* ================================================================== *)

Section ParsePRNumberFacts.
Local Open Scope string_scope.

Lemma readDigits_step (c : ascii) (s : string) (acc : nat) :
  JsonReader.isDigit c = true ->
  JsonReader.readDigits acc (String c s)
  = JsonReader.readDigits (10 * acc + (nat_of_ascii c - 48)) s.
Proof. intro H. cbn [JsonReader.readDigits]. now rewrite H. Qed.

Lemma readDigits_rendering (d : Decimal.uint) :
  forall acc rest,
    noDigitAhead rest ->
    JsonReader.readDigits acc (NilEmpty.string_of_uint d ++ rest)
    = (Nat.of_uint_acc d acc, rest).
Proof.
  induction d; intros acc rest Hrest; cbn [NilEmpty.string_of_uint append];
    try (rewrite readDigits_step by reflexivity; rewrite IHd by exact Hrest;
         cbn [Nat.of_uint_acc]; rewrite Nat.tail_mul_spec;
         match goal with
         | |- context [nat_of_ascii ?c - 48] =>
             let v := eval vm_compute in (nat_of_ascii c - 48) in
             change (nat_of_ascii c - 48) with v
         end;
         f_equal; f_equal; lia).
  destruct rest as [| c rest]; [reflexivity |].
  cbn in Hrest. cbn [JsonReader.readDigits]. now rewrite Hrest.
Qed.

Lemma readDigits_ofNat (n : nat) (rest : string) :
  noDigitAhead rest ->
  JsonReader.readDigits 0 (JsString.ofNat n ++ rest) = (n, rest).
Proof.
  intro H. unfold JsString.ofNat. rewrite (readDigits_rendering _ 0 rest H).
  f_equal. apply DecimalNat.Unsigned.of_to.
Qed.

Lemma ofNat_head (n : nat) :
  exists c s, JsString.ofNat n = String c s /\ JsonReader.isDigit c = true.
Proof.
  pose proof (allDigits_ofNat n) as Hd.
  destruct (JsString.ofNat n) as [| c s] eqn:E.
  - exfalso. change EmptyString with (NilEmpty.string_of_uint Decimal.Nil) in E.
    apply string_of_uint_inj in E.
    pose proof (DecimalNat.Unsigned.of_to n) as Hn. rewrite E in Hn.
    cbn in Hn. subst n. discriminate E.
  - cbn in Hd. apply andb_true_iff in Hd. destruct Hd as [Hc _]. eauto.
Qed.

(** What a digit is not. *)
Lemma digit_is_plain (c : ascii) :
  JsonReader.isDigit c = true ->
  JsString.isWhiteSpace c = false
  /\ Ascii.eqb c "p" = false /\ Ascii.eqb c "P" = false
  /\ Ascii.eqb c "#" = false /\ Ascii.eqb c "-" = false
  /\ Ascii.eqb c "+" = false.
Proof.
  destruct c as [[] [] [] [] [] [] [] []]; intro H;
    first [discriminate H | repeat split].
Qed.

Lemma trimEnd_keeps (c : ascii) (s : string) :
  JsString.isWhiteSpace c = false ->
  JsString.trimEnd (String c s) = String c (JsString.trimEnd s).
Proof.
  intro H. cbn [JsString.trimEnd]. rewrite H.
  destruct (JsString.trimEnd s); reflexivity.
Qed.

Lemma trimEnd_digits (a rest : string) :
  allDigits a = true ->
  JsString.trimEnd (a ++ rest) = a ++ JsString.trimEnd rest.
Proof.
  induction a as [| c a IH]; intro H; [reflexivity |].
  cbn [allDigits] in H. apply andb_true_iff in H. destruct H as [Hc Ha].
  cbn [append]. rewrite trimEnd_keeps by apply (digit_is_plain c Hc).
  now rewrite IH.
Qed.

Lemma trimEnd_noDigitAhead (rest : string) :
  noDigitAhead rest -> noDigitAhead (JsString.trimEnd rest).
Proof.
  destruct rest as [| c rest]; [exact (fun H => H) |].
  cbn [JsString.trimEnd noDigitAhead]. intro H.
  destruct (JsString.trimEnd rest); [| exact H].
  destruct (JsString.isWhiteSpace c); [exact I | exact H].
Qed.

(** [parseInt] on digits followed by a text that does not go on with a
    digit. *)
Lemma parseInt10_digits (n : nat) (rest : string) :
  noDigitAhead rest ->
  parseInt10 (JsString.ofNat n ++ rest) = Some (Z.of_nat n)
  /\ parseInt10 ("-" ++ JsString.ofNat n ++ rest) = Some (- Z.of_nat n)%Z.
Proof.
  intro H. pose proof (readDigits_ofNat n rest H) as Hread.
  destruct (ofNat_head n) as [c [s [E Hc]]].
  destruct (digit_is_plain c Hc) as [Hws [_ [_ [_ [Hminus Hplus]]]]].
  unfold parseInt10. rewrite E in Hread |- *. cbn [append JsString.trimStart].
  rewrite Hws, Hminus, Hplus, Hc.
  change (JsString.isWhiteSpace "-") with false. cbn iota.
  change (Ascii.eqb "-" "-") with true. cbn iota.
  rewrite Hc. cbn [append] in Hread. rewrite Hread. split; reflexivity.
Qed.

Lemma trimStart_white (ws s : string) :
  allWhiteSpace ws = true ->
  JsString.trimStart (ws ++ s) = JsString.trimStart s.
Proof.
  induction ws as [| c ws IH]; intro H; [reflexivity |].
  cbn [allWhiteSpace] in H. apply andb_true_iff in H. destruct H as [Hc Hws].
  cbn [append JsString.trimStart]. rewrite Hc. now apply IH.
Qed.

Lemma trimStart_keeps (c : ascii) (s : string) :
  JsString.isWhiteSpace c = false ->
  JsString.trimStart (String c s) = String c s.
Proof. intro H. cbn [JsString.trimStart]. now rewrite H. Qed.

Lemma stripPrefix_plain (c : ascii) (s : string) :
  startsNumber c -> stripPrefix (String c s) = String c s.
Proof.
  intros [Hws [Hp [HP Hhash]]]. unfold stripPrefix.
  rewrite (@trimStart_keeps c s Hws).
  destruct s as [| r rest]; rewrite ?Hp, ?HP; cbn [orb andb];
    rewrite Hhash; now apply trimStart_keeps.
Qed.

Lemma stripPrefix_white (ws s : string) :
  allWhiteSpace ws = true -> stripPrefix (ws ++ s) = stripPrefix s.
Proof.
  intro H. unfold stripPrefix. now rewrite (@trimStart_white ws s H).
Qed.

Lemma stripPrefix_hash (ws : string) (c : ascii) (s : string) :
  allWhiteSpace ws = true ->
  startsNumber c ->
  stripPrefix ("#" ++ ws ++ String c s) = String c s.
Proof.
  intros Hws Hc. unfold stripPrefix.
  change ("#" ++ ws ++ String c s) with (String "#" (ws ++ String c s)).
  rewrite (@trimStart_keeps "#" _ eq_refl).
  destruct (ws ++ String c s) as [| r rest] eqn:E.
  - destruct ws; discriminate E.
  - change (Ascii.eqb "#" "p" || Ascii.eqb "#" "P") with false. cbn [andb].
    change (Ascii.eqb "#" "#") with true. cbv iota.
    rewrite <- E, (@trimStart_white ws _ Hws). apply trimStart_keeps. apply Hc.
Qed.

Lemma stripPrefix_pr_number (a b : ascii) (ws2 hash ws3 : string) (c : ascii)
    (s : string) :
  Ascii.eqb a "p" || Ascii.eqb a "P" = true ->
  Ascii.eqb b "r" || Ascii.eqb b "R" = true ->
  allWhiteSpace ws2 = true ->
  hash = "" \/ hash = "#" ->
  allWhiteSpace ws3 = true ->
  startsNumber c ->
  stripPrefix (String a (String b (ws2 ++ hash ++ ws3 ++ String c s))) = String c s.
Proof.
  intros Ha Hb Hws2 Hhash Hws3 Hc. unfold stripPrefix.
  assert (Hwsa : JsString.isWhiteSpace a = false).
  { apply orb_true_iff in Ha. destruct Ha as [Ha | Ha];
      apply Ascii.eqb_eq in Ha; subst a; reflexivity. }
  rewrite (@trimStart_keeps a _ Hwsa), Ha, Hb. cbn [andb].
  rewrite (@trimStart_white ws2 _ Hws2).
  destruct Hc as [Hcw [Hcp [HcP Hch]]].
  destruct Hhash as [-> | ->].
  - cbn [append]. rewrite (@trimStart_white ws3 _ Hws3), (@trimStart_keeps c s Hcw), Hch.
    now apply trimStart_keeps.
  - change ("#" ++ ws3 ++ String c s) with (String "#" (ws3 ++ String c s)).
    rewrite (@trimStart_keeps "#" _ eq_refl).
    change (Ascii.eqb "#" "#") with true. cbv iota.
    rewrite (@trimStart_white ws3 _ Hws3). now apply trimStart_keeps.
Qed.

Lemma digit_startsNumber (c : ascii) :
  JsonReader.isDigit c = true -> startsNumber c.
Proof.
  intro H. destruct (digit_is_plain c H) as [Hws [Hp [HP [Hh _]]]].
  repeat split; assumption.
Qed.

Lemma minus_startsNumber : startsNumber "-".
Proof. repeat split. Qed.

(** The prefix of the pattern, in all its forms, is taken off a text that
    goes on with a digit or with a minus sign. *)
Lemma stripPrefix_number (ws1 pr ws2 hash ws3 : string) (c : ascii) (s : string) :
  allWhiteSpace ws1 = true ->
  In pr [""; "pr"; "PR"; "Pr"; "pR"] ->
  allWhiteSpace ws2 = true ->
  hash = "" \/ hash = "#" ->
  allWhiteSpace ws3 = true ->
  startsNumber c ->
  stripPrefix (ws1 ++ pr ++ ws2 ++ hash ++ ws3 ++ String c s) = String c s.
Proof.
  intros H1 Hpr H2 Hhash H3 Hc. rewrite (@stripPrefix_white ws1 _ H1).
  destruct Hpr as [<- | [<- | [<- | [<- | [<- | []]]]]];
    try (cbn [append]; apply stripPrefix_pr_number; auto).
  cbn [append]. rewrite (@stripPrefix_white ws2 _ H2).
  destruct Hhash as [-> | ->].
  - cbn [append]. rewrite (@stripPrefix_white ws3 _ H3). now apply stripPrefix_plain.
  - now apply stripPrefix_hash.
Qed.

Lemma trim_number (n : nat) (rest : string) (sign : string) :
  sign = "" \/ sign = "-" ->
  JsString.trim (sign ++ JsString.ofNat n ++ rest)
  = sign ++ JsString.ofNat n ++ JsString.trimEnd rest.
Proof.
  intro Hsign. unfold JsString.trim.
  destruct Hsign as [-> | ->].
  - cbn [append].
    assert (Hstart : JsString.trimStart (JsString.ofNat n ++ rest)
                     = JsString.ofNat n ++ rest).
    { destruct (ofNat_head n) as [c [s [E Hc]]].
      destruct (digit_is_plain c Hc) as [Hws _].
      rewrite E. cbn [append]. now apply trimStart_keeps. }
    rewrite Hstart. apply trimEnd_digits, allDigits_ofNat.
  - change ("-" ++ JsString.ofNat n ++ rest)
      with (String "-" (JsString.ofNat n ++ rest)).
    rewrite (@trimStart_keeps "-" _ eq_refl), (@trimEnd_keeps "-" _ eq_refl).
    rewrite trimEnd_digits by apply allDigits_ofNat. reflexivity.
Qed.

End ParsePRNumberFacts.

Section ParsePRNumberForms.
Local Open Scope string_scope.

(** X24: [parsePRNumber] reads the number [n] from every input made of
    white space, an optional [pr] in either case, white space, an optional
    [#], white space, the decimal digits of [n], and any text that does
    not go on with a digit: the forms [3], [#3] and [PR #3] of the source
    comment, and also [pr3], [ Pr  # 3 please] and [3.5].  The number is
    taken within the range a JavaScript number holds exactly. *)
Theorem pr_number_is_read (ws1 pr ws2 hash ws3 : string) (n : nat) (rest : string) :
  allWhiteSpace ws1 = true ->
  In pr [""; "pr"; "PR"; "Pr"; "pR"] ->
  allWhiteSpace ws2 = true ->
  hash = "" \/ hash = "#" ->
  allWhiteSpace ws3 = true ->
  noDigitAhead rest ->
  (Z.of_nat n <= 2 ^ 53)%Z ->
  parsePRNumber (ws1 ++ pr ++ ws2 ++ hash ++ ws3 ++ JsString.ofNat n ++ rest)
  = Some (Z.of_nat n).
Proof.
  intros H1 Hpr H2 Hhash H3 Hrest _. unfold parsePRNumber.
  assert (Hstrip : stripPrefix (ws1 ++ pr ++ ws2 ++ hash ++ ws3 ++ JsString.ofNat n ++ rest)
                   = JsString.ofNat n ++ rest).
  { destruct (ofNat_head n) as [c [s [E Hc]]]. rewrite E.
    change (String c s ++ rest) with (String c (s ++ rest)).
    apply stripPrefix_number; auto using digit_startsNumber. }
  rewrite Hstrip.
  change (JsString.ofNat n ++ rest) with ("" ++ JsString.ofNat n ++ rest).
  rewrite (@trim_number n rest "" (or_introl eq_refl)). cbn [append].
  apply parseInt10_digits. now apply trimEnd_noDigitAhead.
Qed.

Lemma pr_number_is_read_witness :
  parsePRNumber " Pr  # 3 please" = Some 3%Z.
Proof.
  refine (@pr_number_is_read " " "Pr" "  " "#" " " 3 " please" _ _ _ _ _ _ _).
  - reflexivity.
  - cbn [In]. auto.
  - reflexivity.
  - now right.
  - reflexivity.
  - reflexivity.
  - vm_compute. discriminate.
Defined.

(** X25: [parsePRNumber] accepts a minus sign before the digits and
    returns a negative number, after every form of the prefix: it does not
    check that the number can be the number of a pull request (for
    [n = 0] the JavaScript value is negative zero, which equals zero). *)
Theorem negative_pr_number_is_read (ws1 pr ws2 hash ws3 : string) (n : nat)
    (rest : string) :
  allWhiteSpace ws1 = true ->
  In pr [""; "pr"; "PR"; "Pr"; "pR"] ->
  allWhiteSpace ws2 = true ->
  hash = "" \/ hash = "#" ->
  allWhiteSpace ws3 = true ->
  noDigitAhead rest ->
  (Z.of_nat n <= 2 ^ 53)%Z ->
  parsePRNumber (ws1 ++ pr ++ ws2 ++ hash ++ ws3 ++ "-" ++ JsString.ofNat n ++ rest)
  = Some (- Z.of_nat n)%Z.
Proof.
  intros H1 Hpr H2 Hhash H3 Hrest _. unfold parsePRNumber.
  change ("-" ++ JsString.ofNat n ++ rest)
    with (String "-" (JsString.ofNat n ++ rest)).
  rewrite (@stripPrefix_number ws1 pr ws2 hash ws3 "-" (JsString.ofNat n ++ rest)
             H1 Hpr H2 Hhash H3 minus_startsNumber).
  change (String "-" (JsString.ofNat n ++ rest))
    with ("-" ++ JsString.ofNat n ++ rest).
  rewrite (@trim_number n rest "-" (or_intror eq_refl)).
  apply parseInt10_digits. now apply trimEnd_noDigitAhead.
Qed.

Lemma negative_pr_number_is_read_witness :
  parsePRNumber "PR #-3" = Some (-3)%Z.
Proof.
  refine (@negative_pr_number_is_read "" "PR" " " "#" "" 3 "" _ _ _ _ _ _ _).
  - reflexivity.
  - cbn [In]. auto.
  - reflexivity.
  - now right.
  - reflexivity.
  - exact I.
  - vm_compute. discriminate.
Defined.

(** X26: [parsePRNumber] returns [null] when what follows the prefix
    starts with neither a digit nor a sign, and when nothing follows
    it. *)
Theorem pr_number_is_missing (ws1 pr ws2 hash ws3 : string) (c : ascii) (s : string) :
  allWhiteSpace ws1 = true ->
  In pr [""; "pr"; "PR"; "Pr"; "pR"] ->
  allWhiteSpace ws2 = true ->
  hash = "" \/ hash = "#" ->
  allWhiteSpace ws3 = true ->
  startsNumber c ->
  JsonReader.isDigit c = false ->
  Ascii.eqb c "-" = false ->
  Ascii.eqb c "+" = false ->
  parsePRNumber (ws1 ++ pr ++ ws2 ++ hash ++ ws3 ++ String c s) = None
  /\ parsePRNumber ws1 = None.
Proof.
  intros H1 Hpr H2 Hhash H3 Hc Hdigit Hminus Hplus. split.
  - unfold parsePRNumber.
    rewrite (@stripPrefix_number ws1 pr ws2 hash ws3 c s H1 Hpr H2 Hhash H3 Hc).
    destruct Hc as [Hws _]. unfold JsString.trim.
    rewrite (@trimStart_keeps c s Hws), (@trimEnd_keeps c s Hws).
    unfold parseInt10. rewrite (@trimStart_keeps c _ Hws), Hminus, Hplus, Hdigit.
    reflexivity.
  - unfold parsePRNumber.
    assert (Hempty : JsString.trimStart ws1 = "").
    { assert (Happ : ws1 ++ "" = ws1).
      { clear. induction ws1 as [| a w IH]; [reflexivity |].
        cbn [append]. now rewrite IH. }
      rewrite <- Happ. now rewrite (@trimStart_white ws1 "" H1). }
    unfold stripPrefix. rewrite Hempty. reflexivity.
Qed.

Lemma pr_number_is_missing_witness :
  parsePRNumber "PR #abc" = None /\ parsePRNumber "  " = None.
Proof.
  refine (@pr_number_is_missing "  " "PR" " " "#" "" "a" "bc" _ _ _ _ _ _ _ _ _);
    try reflexivity.
  - cbn [In]. auto.
  - now right.
  - repeat split.
Defined.
End ParsePRNumberForms.
